(** * Attention scorer of the notebook [TransKQV_todo.ipynb]

    The notebook defines [compute_attention] (single-head dot-product
    attention with a softmax) and the scaffold of [multi_head_attention].
    Both work on numpy arrays of floats.  Around them, [create_KQV] builds
    the arrays from the dict [books] of the module, and
    [visualize_attention] and [visualize_multi_head_attention] compute what
    they then draw; the calls into matplotlib and seaborn are not
    modelled.

    Numbers.  A numpy float is modelled as a real number or one of the three
    IEEE special values [+inf], [-inf], [nan].  Arithmetic on finite values
    is exact: rounding and overflow are not represented, and the sign of a
    zero is not represented either (the zero of the model divides like
    [+0.0]).  The special values arise as in IEEE 754, from a division by
    zero and from operations on special values.

    Arrays.  A one-dimensional array is a list; a two-dimensional array
    carries its number of columns, so that the shape [(0, d)] exists.
    [keys] is a two-dimensional array, [query] and [values] are
    one-dimensional, as [create_KQV] builds them.  No function of the
    notebook writes into an array, so arrays are passed as values.  The
    default arguments ([temperature=1.0], [n_heads=2]) are written out at
    every call.

    Exceptions.  numpy raises [ValueError] on operands whose shapes do not
    fit; Python raises [NameError], [IndexError], [KeyError],
    [AttributeError], [TypeError] on the name and container operations used
    by [multi_head_attention]. *)

From Stdlib Require Import String Reals Lra Lia ZArith Bool Arith List.
From Stdlib Require Import Permutation.
Import ListNotations.

Open Scope R_scope.

(** ** Floats *)

Inductive float : Type :=
| Fin (r : R)
| PInf
| NInf
| NaN.

Inductive sign : Type := Neg | Zero | Pos.

Definition Rsign (r : R) : sign :=
  match total_order_T r 0 with
  | inleft (left _) => Neg
  | inleft (right _) => Zero
  | inright _ => Pos
  end.

Definition sign_mul (s1 s2 : sign) : sign :=
  match s1, s2 with
  | Zero, _ | _, Zero => Zero
  | Pos, Pos | Neg, Neg => Pos
  | Pos, Neg | Neg, Pos => Neg
  end.

(** The infinity of a given sign; [nan] for the sign of zero. *)
Definition inf_of (s : sign) : float :=
  match s with
  | Pos => PInf
  | Neg => NInf
  | Zero => NaN
  end.

Definition fsign (x : float) : option sign :=
  match x with
  | Fin r => Some (Rsign r)
  | PInf => Some Pos
  | NInf => Some Neg
  | NaN => None
  end.

Definition fadd (x y : float) : float :=
  match x, y with
  | NaN, _ | _, NaN => NaN
  | PInf, NInf | NInf, PInf => NaN
  | PInf, _ | _, PInf => PInf
  | NInf, _ | _, NInf => NInf
  | Fin a, Fin b => Fin (a + b)
  end.

Definition fmul (x y : float) : float :=
  match x, y with
  | Fin a, Fin b => Fin (a * b)
  | _, _ =>
      match fsign x, fsign y with
      | Some s1, Some s2 => inf_of (sign_mul s1 s2)
      | _, _ => NaN
      end
  end.

(** Division.  A finite value over zero is an infinity of the sign of the
    numerator, and [0 / 0] is [nan]; numpy warns and does not raise. *)
Definition fdiv (x y : float) : float :=
  match x, y with
  | NaN, _ | _, NaN => NaN
  | Fin a, Fin b =>
      match Rsign b with
      | Zero => inf_of (Rsign a)
      | _ => Fin (a / b)
      end
  | Fin _, _ => Fin 0
  | _, Fin b =>
      match Rsign b, x with
      | Neg, PInf => NInf
      | Neg, _ => PInf
      | _, _ => x
      end
  | _, _ => NaN
  end.

Definition fexp (x : float) : float :=
  match x with
  | Fin r => Fin (exp r)
  | PInf => PInf
  | NInf => Fin 0
  | NaN => NaN
  end.

(** ** Exceptions and outcomes *)

Inductive exn : Type :=
| ValueError
| NameError
| IndexError
| KeyError
| AttributeError
| TypeError.

Inductive outcome (A : Type) : Type :=
| Ok (a : A)
| Raise (e : exn).

Arguments Ok {A} a.
Arguments Raise {A} e.

Definition obind {A B : Type} (o : outcome A) (k : A -> outcome B) : outcome B :=
  match o with
  | Ok a => k a
  | Raise e => Raise e
  end.

Declare Scope outcome_scope.
Delimit Scope outcome_scope with outcome.
Notation "'let!' x ':=' c 'in' k" := (obind c (fun x => k))
  (at level 10, x name, c at level 100, k at level 200) : outcome_scope.

(** ** Arrays *)

Record ndarray2 : Type := mk_ndarray2 {
  ncols : nat;
  rows : list (list float)
}.

(** Every row of a two-dimensional array has [ncols] entries. *)
Definition wf_ndarray2 (a : ndarray2) : Prop :=
  Forall (fun r => length r = ncols a) (rows a).

(** [np.sum] of a one-dimensional array; [0.0] on the empty array. *)
Definition np_sum (l : list float) : float :=
  fold_left fadd l (Fin 0).

(** Element-wise product of two lists, up to the shorter one. *)
Fixpoint zip_mul (u v : list float) : list float :=
  match u, v with
  | x :: u', y :: v' => fmul x y :: zip_mul u' v'
  | _, _ => []
  end.

(** Inner product of a row with a vector of the same length. *)
Definition inner (u v : list float) : float :=
  np_sum (zip_mul u v).

(** [np.dot(a, v)] for a two-dimensional [a] of shape [(N, d)] and a
    one-dimensional [v]: [ValueError] unless [v] has [d] entries. *)
Definition np_dot (a : ndarray2) (v : list float) : outcome (list float) :=
  if Nat.eqb (ncols a) (length v)
  then Ok (map (fun r => inner r v) (rows a))
  else Raise ValueError.

(** [x * y] on one-dimensional arrays, with numpy's broadcasting: an
    operand of length one is stretched to the length of the other;
    otherwise the lengths must agree. *)
Definition np_multiply (x y : list float) : outcome (list float) :=
  match x, y with
  | [a], _ => Ok (map (fun b => fmul a b) y)
  | _, [b] => Ok (map (fun a => fmul a b) x)
  | _, _ =>
      if Nat.eqb (length x) (length y)
      then Ok (zip_mul x y)
      else Raise ValueError
  end.

(** ** Single-head attention *)

Local Open Scope outcome_scope.

(** [attention_scores = np.dot(keys, query) / temperature] *)
Definition attention_scores (keys : ndarray2) (query : list float)
    (temperature : float) : outcome (list float) :=
  let! dots := np_dot keys query in
  Ok (map (fun s => fdiv s temperature) dots).

(** [np.exp(scores) / np.sum(np.exp(scores))] *)
Definition softmax (scores : list float) : list float :=
  map (fun e => fdiv e (np_sum (map fexp scores))) (map fexp scores).

Definition compute_attention (keys : ndarray2) (query values : list float)
    (temperature : float) : outcome (list float * float) :=
  (* Compute similarity between query and keys *)
  let! attention_scores := attention_scores keys query temperature in
  (* Softmax *)
  let attention_weights := softmax attention_scores in
  (* Weighted sum of values *)
  let! products := np_multiply values attention_weights in
  let weighted_sum := np_sum products in
  Ok (attention_weights, weighted_sum).

(** ** Module namespace

    [multi_head_attention] loads two names that it never binds, [books] and
    [attention_per_head]; Python resolves them in the namespace of the
    module.  The namespace maps a name to the object bound to it, if any.
    Two shapes of objects are enough: a dict shaped like [books] and a list
    of one-dimensional arrays. *)

Record book : Type := mk_book {
  embedding : list float;
  rating : float
}.

Inductive pyobj : Type :=
| PyDict (d : list (string * book))
| PyList (l : list (list float)).

Definition namespace : Type := string -> option pyobj.

(** A computation reads and may write the namespace, and returns or raises. *)
Definition M (A : Type) : Type := namespace -> outcome A * namespace.

Definition mret {A : Type} (a : A) : M A := fun g => (Ok a, g).

Definition mbind {A B : Type} (m : M A) (k : A -> M B) : M B :=
  fun g =>
    match m g with
    | (Ok a, g') => k a g'
    | (Raise e, g') => (Raise e, g')
    end.

Definition lift {A : Type} (o : outcome A) : M A := fun g => (o, g).

Declare Scope py_scope.
Delimit Scope py_scope with py.
Notation "x <- c ;; k" := (mbind c (fun x => k))
  (at level 61, c at next level, right associativity) : py_scope.

Local Open Scope py_scope.
Local Open Scope string_scope.

(** Loading a global name: [NameError] when the name is not bound. *)
Definition load_global (name : string) : M pyobj :=
  fun g =>
    match g name with
    | Some o => (Ok o, g)
    | None => (Raise NameError, g)
    end.

(** A loop or comprehension that collects the result of its body for every
    element, in order, and stops at the first exception. *)
Fixpoint for_each {A B : Type} (l : list A) (body : A -> M B) : M (list B) :=
  match l with
  | [] => mret []
  | a :: l' =>
      b <- body a ;;
      bs <- for_each l' body ;;
      mret (b :: bs)
  end.

Fixpoint enumerate_from {A : Type} (i : nat) (l : list A) : list (nat * A) :=
  match l with
  | [] => []
  | a :: l' => (i, a) :: enumerate_from (S i) l'
  end.

Definition enumerate {A : Type} (l : list A) : list (nat * A) :=
  enumerate_from 0 l.

(** [range(n)] for a Python integer [n]: empty when [n <= 0]. *)
Definition range (n : Z) : list nat := seq 0 (Z.to_nat n).

(** [o.keys()] *)
Definition py_keys (o : pyobj) : outcome (list string) :=
  match o with
  | PyDict d => Ok (map fst d)
  | PyList _ => Raise AttributeError
  end.

Fixpoint dict_get (d : list (string * book)) (k : string) : outcome book :=
  match d with
  | [] => Raise KeyError
  | (k', b) :: d' => if String.eqb k' k then Ok b else dict_get d' k
  end.

(** [o[k]] for a string [k]; a list has no string index. *)
Definition py_getitem_str (o : pyobj) (k : string) : outcome book :=
  match o with
  | PyDict d => dict_get d k
  | PyList _ => Raise TypeError
  end.

(** [o[i]] for an integer [i >= 0].  The keys of the dict are strings, so
    an integer key is missing. *)
Definition py_getitem_int (o : pyobj) (i : nat) : outcome (list float) :=
  match o with
  | PyList l =>
      match nth_error l i with
      | Some r => Ok r
      | None => Raise IndexError
      end
  | PyDict _ => Raise KeyError
  end.

Definition array_getitem (r : list float) (i : nat) : outcome float :=
  match nth_error r i with
  | Some x => Ok x
  | None => Raise IndexError
  end.

(** The result of [np.mean(..., axis=0)]: a scalar or a one-dimensional
    array. *)
Inductive ndarray : Type :=
| Scalar (x : float)
| Array1 (l : list float).

Definition column (i : nat) (m : list (list float)) : list float :=
  map (fun r => nth i r NaN) m.

(** [np.mean(m, axis=0)] for a list [m] of one-dimensional arrays of one
    length.  On the empty list numpy returns the scalar [nan] (with a
    warning); otherwise the mean of every column. *)
Definition np_mean_axis0 (m : list (list float)) : ndarray :=
  match m with
  | [] => Scalar NaN
  | r :: _ =>
      Array1 (map (fun i => fdiv (np_sum (column i m)) (Fin (INR (length m))))
                  (seq 0 (length r)))
  end.

(** ** Multi-head attention, as the notebook has it *)

Definition fins (l : list R) : list float := map Fin l.

Definition projection_matrices : list (Z * ndarray2) :=
  [ (0%Z, mk_ndarray2 3 [ fins [0.8; 0.2; 0.0];    (* First head *)
                          fins [0.2; 0.7; 0.1];
                          fins [0.0; 0.1; 0.9] ]);
    (1%Z, mk_ndarray2 3 [ fins [0.1; 0.8; 0.1];    (* Second head *)
                          fins [0.1; 0.1; 0.8];
                          fins [0.8; 0.1; 0.1] ]) ].

(** The body of the notebook's function.  The steps that its comments
    number 1 to 5 are left to the reader there and bind nothing, so that
    [attention_per_head] is a global name. *)
Definition multi_head_attention (keys : ndarray2) (query values : list float)
    (n_heads : Z) (temperature : float)
    : M (pyobj * ndarray * list (Z * ndarray2)) :=
  let d_model := length query in
  (* Calculate weighted ratings for each book from each head *)
  book_ratings_per_head <-
    for_each (range n_heads) (fun head_idx =>
      (* head_ratings = np.array([books[book]["rating"]
                                  * attention_per_head[head_idx][i]
                                  for i, book in enumerate(books.keys())]) *)
      books <- load_global "books" ;;
      names <- lift (py_keys books) ;;
      for_each (enumerate names) (fun '(i, book) =>
        books <- load_global "books" ;;
        entry <- lift (py_getitem_str books book) ;;
        attention_per_head <- load_global "attention_per_head" ;;
        head <- lift (py_getitem_int attention_per_head head_idx) ;;
        weight <- lift (array_getitem head i) ;;
        mret (fmul (rating entry) weight))) ;;
  (* You can average the ratings across heads for each book *)
  let final_ratings := np_mean_axis0 book_ratings_per_head in
  attention_per_head <- load_global "attention_per_head" ;;
  mret (attention_per_head, final_ratings, projection_matrices).

(** ** The data of the notebook *)

Definition books : list (string * book) :=
  [ ("Harry Potter", mk_book (fins [0.9; 0.8; 0.3]) (Fin 4.8));
    ("Lord of the Rings", mk_book (fins [0.8; 0.9; 0.2]) (Fin 4.9));
    ("Romeo and Juliet", mk_book (fins [0.1; 0.2; 0.9]) (Fin 4.5));
    ("Sherlock Holmes", mk_book (fins [0.2; 0.9; 0.3]) (Fin 4.6));
    ("Twilight", mk_book (fins [0.4; 0.3; 0.9]) (Fin 4.0)) ].

(** The namespace after the cells of the notebook have run: [books] is
    bound, [attention_per_head] is not. *)
Definition notebook_namespace : namespace :=
  fun name => if String.eqb name "books" then Some (PyDict books) else None.

(** The arrays that [create_KQV] builds from [books]. *)
Definition KQV_keys : ndarray2 := mk_ndarray2 3 (map (fun b => embedding (snd b)) books).
Definition KQV_query : list float := fins [0.8; 0.7; 0.2].
Definition KQV_values : list float := map (fun b => rating (snd b)) books.

(** ** Index-wise reading of the formulas

    The sums of the specification, written over indices:
    [fsum_upto n f] is [f 0 + ... + f (n-1)]. *)

Fixpoint fsum_upto (n : nat) (f : nat -> float) : float :=
  match n with
  | O => Fin 0
  | S n' => fadd (fsum_upto n' f) (f n')
  end.

(** [dot(u, v)] over the [d] coordinates. *)
Definition dot_at (d : nat) (u v : list float) : float :=
  fsum_upto d (fun k => fmul (nth k u NaN) (nth k v NaN)).

(** [score[i] = dot(keys[i], query) / temperature] *)
Definition score_at (keys : ndarray2) (query : list float)
    (temperature : float) (i : nat) : float :=
  fdiv (dot_at (ncols keys) (nth i (rows keys) []) query) temperature.

(** [weights[i] = exp(score[i]) / sum_j exp(score[j])] *)
Definition weight_at (keys : ndarray2) (query : list float)
    (temperature : float) (i : nat) : float :=
  fdiv (fexp (score_at keys query temperature i))
       (fsum_upto (length (rows keys))
                  (fun j => fexp (score_at keys query temperature j))).

(** ** Real-valued reading on finite inputs *)

Definition Rsum (l : list R) : R := fold_right Rplus 0 l.

Fixpoint Rzip_mul (u v : list R) : list R :=
  match u, v with
  | x :: u', y :: v' => x * y :: Rzip_mul u' v'
  | _, _ => []
  end.

Definition Rdot (u v : list R) : R := Rsum (Rzip_mul u v).

Definition Rsoftmax (s : list R) : list R :=
  map (fun x => exp x / Rsum (map exp s)) s.

(** The scores of finite keys and query at a finite, non-zero temperature. *)
Definition Rscores (rs : list (list R)) (q : list R) (t : R) : list R :=
  map (fun r => Rdot r q / t) rs.

Definition fin_array (d : nat) (rs : list (list R)) : ndarray2 :=
  mk_ndarray2 d (map fins rs).

Definition Rlist_min (x : R) (l : list R) : R := fold_right Rmin x l.
Definition Rlist_max (x : R) (l : list R) : R := fold_right Rmax x l.

(** ** Inputs used as examples *)

(** Two items, [keys=[[1,0],[0,1]]], [query=[1,0]], [values=[10,20]]. *)
Definition scenario_keys : ndarray2 := fin_array 2 [[1; 0]; [0; 1]].
Definition scenario_query : list float := fins [1; 0].
Definition scenario_values : list float := fins [10; 20].

(** One key of dimension three against a query of dimension two. *)
Definition mismatch_keys : ndarray2 := fin_array 3 [[1; 0; 0]].
Definition mismatch_query : list float := fins [1; 0].

(** The dimension condition of the specification: the keys and the query
    differ in dimension, or there are not as many values as keys. *)
Definition dimension_mismatch (keys : ndarray2) (query values : list float)
    : Prop :=
  ncols keys <> length query \/ length (rows keys) <> length values.

(** The dimension condition of numpy: the keys and the query differ in
    dimension, or the values and the weights differ in length and neither
    has length one. *)
Definition shapes_rejected (keys : ndarray2) (query values : list float)
    : Prop :=
  ncols keys <> length query
  \/ (length values <> length (rows keys)
      /\ length values <> 1%nat
      /\ length (rows keys) <> 1%nat).

(** Two items with the same key: their scores tie. *)
Definition tie_keys : ndarray2 := fin_array 1 [[1]; [1]].
Definition tie_query : list float := fins [1].
Definition tie_values : list float := fins [10; 20].

(** ** Limits in the temperature *)

(** At the finite temperature [t] the call returns the finite weights
    [ws]. *)
Definition returns_weights (keys : ndarray2) (query values : list float)
    (t : R) (ws : list R) : Prop :=
  exists aggregate,
    compute_attention keys query values (Fin t) = Ok (fins ws, aggregate).

(** As the temperature grows, every weight tends to [1/N]. *)
Definition flattens_to_uniform (keys : ndarray2) (query values : list float)
    : Prop :=
  forall eps, 0 < eps ->
  exists T, 0 < T /\
    forall t, T < t ->
    exists ws,
      returns_weights keys query values t ws
      /\ forall i, (i < length (rows keys))%nat ->
           Rabs (nth i ws 0 - 1 / INR (length (rows keys))) < eps.

Definition one_hot (m i : nat) : R := if Nat.eqb i m then 1 else 0.

(** As the temperature decreases to 0, the weights tend to the one-hot
    distribution on item [m]. *)
Definition sharpens_to_one_hot (keys : ndarray2) (query values : list float)
    (m : nat) : Prop :=
  forall eps, 0 < eps ->
  exists tau, 0 < tau /\
    forall t, 0 < t < tau ->
    exists ws,
      returns_weights keys query values t ws
      /\ forall i, (i < length (rows keys))%nat ->
           Rabs (nth i ws 0 - one_hot m i) < eps.

(** Item [m] has the maximum score, at every positive temperature. *)
Definition max_score_item (rs : list (list R)) (q : list R) (m : nat) : Prop :=
  (m < length rs)%nat
  /\ forall t, 0 < t ->
     forall j, (j < length rs)%nat ->
       nth j (Rscores rs q t) 0 <= nth m (Rscores rs q t) 0.

(** Item [m] has the maximum score and no other item reaches it. *)
Definition only_max_score_item (rs : list (list R)) (q : list R) (m : nat)
    : Prop :=
  (m < length rs)%nat
  /\ forall t, 0 < t ->
     forall j, (j < length rs)%nat -> j <> m ->
       nth j (Rscores rs q t) 0 < nth m (Rscores rs q t) 0.

(** A bound on the absolute value of every dot product. *)
Definition dot_bound (rs : list (list R)) (q : list R) : R :=
  Rsum (map (fun r => Rabs (Rdot r q)) rs).

(** ** Reading the namespace *)

(** [reads_only names m]: the computation [m] leaves the namespace as it
    found it, and its outcome is the same in two namespaces that agree on
    [names]. *)
Definition reads_only {A : Type} (names : list string) (m : M A) : Prop :=
  (forall g, snd (m g) = g)
  /\ (forall g g', (forall n, In n names -> g n = g' n) ->
                   fst (m g) = fst (m g')).

(** A namespace that binds [books] and [attention_per_head]. *)
Definition namespace_with (bks : list (string * book))
    (heads : list (list float)) : namespace :=
  fun name =>
    if String.eqb name "books" then Some (PyDict bks)
    else if String.eqb name "attention_per_head" then Some (PyList heads)
    else None.

(** A namespace with one book of rating [r] and one head of weight 1. *)
Definition one_book_namespace (r : R) : namespace :=
  namespace_with [("Dune", mk_book (fins [0.5; 0.5; 0.5]) (Fin r))]
                 [[Fin 1]].

(** ** The ratings that the written half of [multi_head_attention] returns *)

(** The error of a call in a namespace that does not bind
    [attention_per_head]: the comprehension asks a list bound to [books]
    for its keys before it reaches the missing name. *)
Definition error_without_heads (g : namespace) (n_heads : Z) : exn :=
  match g "books" with
  | Some (PyList _) => if Z.ltb 0 n_heads then AttributeError else NameError
  | _ => NameError
  end.

(** Head [h] is missing from the list bound to [attention_per_head], or
    has fewer weights than there are books. *)
Definition short_head (d : list (string * book)) (heads : list (list float))
    (h : nat) : Prop :=
  (length heads <= h)%nat \/ (length (nth h heads []) < length d)%nat.

(** The ratings of head [h]: [rating[i] * heads[h][i]] for every book. *)
Definition head_ratings (d : list (string * book)) (heads : list (list float))
    (h : nat) : list float :=
  map (fun i => fmul (rating (nth i (map snd d) (mk_book [] NaN)))
                     (nth i (nth h heads []) NaN))
      (seq 0 (length d)).

(** [final[i] = mean over the heads h of rating[i] * heads[h][i]] *)
Definition mean_ratings (d : list (string * book)) (heads : list (list float))
    (n : nat) : list float :=
  map (fun i =>
         fdiv (fsum_upto n (fun h =>
                 fmul (rating (nth i (map snd d) (mk_book [] NaN)))
                      (nth i (nth h heads []) NaN)))
              (Fin (INR n)))
      (seq 0 (length d)).

(** ** Building the arrays and drawing the single head *)

Definition fneg (x : float) : float :=
  match x with
  | Fin r => Fin (- r)
  | PInf => NInf
  | NInf => PInf
  | NaN => NaN
  end.

Definition fsub (x y : float) : float := fadd x (fneg y).

Definition fabs (x : float) : float :=
  match x with
  | Fin r => Fin (Rabs r)
  | PInf | NInf => PInf
  | NaN => NaN
  end.

(** An array of one or of two dimensions. *)
Inductive array_like : Type :=
| Arr1 (l : list float)
| Arr2 (a : ndarray2).

(** [np.array(rs)] for a list [rs] of one-dimensional arrays: the empty
    list gives the empty one-dimensional array, rows of one length give a
    two-dimensional array, and rows of different lengths are refused with
    [ValueError] (numpy 1.24 and later; the notebook runs on Python 3.12). *)
Definition np_array (rs : list (list float)) : outcome array_like :=
  match rs with
  | [] => Ok (Arr1 [])
  | r :: rs' =>
      if forallb (fun r' => Nat.eqb (length r') (length r)) rs'
      then Ok (Arr2 (mk_ndarray2 (length r) rs))
      else Raise ValueError
  end.

(** [o.values()] *)
Definition py_values (o : pyobj) : outcome (list book) :=
  match o with
  | PyDict d => Ok (map snd d)
  | PyList _ => Raise AttributeError
  end.

(** [len(o)] *)
Definition py_len (o : pyobj) : nat :=
  match o with
  | PyDict d => length d
  | PyList l => length l
  end.

Definition create_KQV : M (array_like * list float * list float) :=
  (* Keys: book features *)
  (books0 <- load_global "books" ;;
   entries <- lift (py_values books0) ;;
   keys <- lift (np_array (map embedding entries)) ;;
   (* Values: book ratings *)
   books1 <- load_global "books" ;;
   entries1 <- lift (py_values books1) ;;
   let values := map rating entries1 in
   (* Query: user preferences *)
   let query := fins [0.8; 0.7; 0.2] in
   mret (keys, query, values))%py.

(** [compute_attention] as Python runs it on keys of either dimension.
    On one-dimensional keys [np.dot] is the inner product, a scalar, and so
    are the score and the weight; [np.sum] of a scalar is the scalar. *)
Definition compute_attention_nd (keys : array_like)
    (query values : list float) (temperature : float)
    : outcome (ndarray * float) :=
  match keys with
  | Arr2 a =>
      let! r := compute_attention a query values temperature in
      Ok (Array1 (fst r), snd r)
  | Arr1 l =>
      if Nat.eqb (length l) (length query)
      then
        let attention_scores := fdiv (inner l query) temperature in
        let attention_weights :=
          fdiv (fexp attention_scores) (fexp attention_scores) in
        let weighted_sum :=
          np_sum (map (fun v => fmul v attention_weights) values) in
        Ok (Scalar attention_weights, weighted_sum)
      else Raise ValueError
  end.

(** [keys[:, i]]: column [i] of a two-dimensional array. *)
Definition column_of (keys : array_like) (i : nat) : outcome (list float) :=
  match keys with
  | Arr2 a =>
      if Nat.ltb i (ncols a)
      then Ok (map (fun r => nth i r NaN) (rows a))
      else Raise IndexError
  | Arr1 _ => Raise IndexError
  end.

(** [matrix[i] = row] for a matrix with rows of [width] entries: a row of
    one entry is stretched; another length is refused. *)
Definition assign_row (width : nat) (row : list float)
    : outcome (list float) :=
  if Nat.eqb (length row) width then Ok row
  else match row with
       | [x] => Ok (repeat x width)
       | _ => Raise ValueError
       end.

(** [1 - np.abs(x - col)] *)
Definition similarity_row (x : float) (col : list float) : list float :=
  map (fun k => fsub (Fin 1) (fabs (fsub x k))) col.

(** [visualize_attention], up to the drawing: it returns what it hands to
    the heat map (the similarity matrix and the names of the books), to
    the bar chart (the weights) and to the title (the predicted rating).
    The calls that draw are not modelled. *)
Definition visualize_attention
    : M (list (list float) * list string * ndarray * float) :=
  (kqv <- create_KQV ;;
   let '(keys, query, values) := kqv in
   out <- lift (compute_attention_nd keys query values (Fin 1)) ;;
   let '(attention_weights, predicted_rating) := out in
   (* 1. Query-Key Similarity per feature *)
   books0 <- load_global "books" ;;
   let width := py_len books0 in
   similarity_matrix <-
     for_each (seq 0 3) (fun i =>
       x <- lift (array_getitem query i) ;;
       col <- lift (column_of keys i) ;;
       lift (assign_row width (similarity_row x col))) ;;
   books1 <- load_global "books" ;;
   book_names <- lift (py_keys books1) ;;
   mret (similarity_matrix, book_names, attention_weights, predicted_rating))%py.

(** A dict of books with finite embeddings and ratings. *)
Definition fin_books (items : list (string * (list R * R)))
    : list (string * book) :=
  map (fun it => (fst it, mk_book (fins (fst (snd it))) (Fin (snd (snd it)))))
      items.

(** The books of the notebook, as names with real features and rating. *)
Definition notebook_items : list (string * (list R * R)) :=
  [ ("Harry Potter", ([0.9; 0.8; 0.3], 4.8));
    ("Lord of the Rings", ([0.8; 0.9; 0.2], 4.9));
    ("Romeo and Juliet", ([0.1; 0.2; 0.9], 4.5));
    ("Sherlock Holmes", ([0.2; 0.9; 0.3], 4.6));
    ("Twilight", ([0.4; 0.3; 0.9], 4.0)) ].

(** ** Drawing the heads *)

(** [matrices[head]] on the dict of projection matrices. *)
Fixpoint matrices_get (matrices : list (Z * ndarray2)) (head : Z)
    : outcome ndarray2 :=
  match matrices with
  | [] => Raise KeyError
  | (k, p) :: rest => if Z.eqb k head then Ok p else matrices_get rest head
  end.

(** A row vector times a matrix: entry [j] is the inner product with
    column [j]. *)
Definition row_times (v : list float) (p : ndarray2) : list float :=
  map (fun j => inner v (map (fun r => nth j r NaN) (rows p)))
      (seq 0 (ncols p)).

(** [np.dot(v, p)] for a one-dimensional [v] and a two-dimensional [p]. *)
Definition np_dot_vec_mat (v : list float) (p : ndarray2)
    : outcome (list float) :=
  if Nat.eqb (length v) (length (rows p))
  then Ok (row_times v p)
  else Raise ValueError.

(** [np.dot(keys, p)] for keys of either dimension. *)
Definition np_dot_nd (keys : array_like) (p : ndarray2) : outcome array_like :=
  match keys with
  | Arr2 a =>
      if Nat.eqb (ncols a) (length (rows p))
      then Ok (Arr2 (mk_ndarray2 (ncols p)
                       (map (fun r => row_times r p) (rows a))))
      else Raise ValueError
  | Arr1 l =>
      let! v := np_dot_vec_mat l p in
      Ok (Arr1 v)
  end.

(** [multi_head_attention] does not look into its keys; one-dimensional
    keys are handed over as the empty two-dimensional array. *)
Definition keys_argument (keys : array_like) : ndarray2 :=
  match keys with
  | Arr2 a => a
  | Arr1 _ => mk_ndarray2 0 []
  end.

(** [visualize_multi_head_attention], up to the drawing: it returns what
    it hands to the heat maps (one similarity matrix per head, and the
    names of the books) and to the bar charts (the weights of each head,
    and the final ratings).  The calls that draw are not modelled. *)
Definition visualize_multi_head_attention
    : M (list (list (list float)) * list string * list (list float)
         * ndarray) :=
  (kqv <- create_KQV ;;
   let '(keys, query, values) := kqv in
   result <- multi_head_attention (keys_argument keys) query values 2 (Fin 1) ;;
   let '(attention_per_head, final_ratings, projection_matrices) := result in
   books0 <- load_global "books" ;;
   book_names <- lift (py_keys books0) ;;
   (* 1. Feature similarity for each head *)
   similarities <-
     for_each (seq 0 2) (fun head =>
       p <- lift (matrices_get projection_matrices (Z.of_nat head)) ;;
       q_transformed <- lift (np_dot_vec_mat query p) ;;
       p' <- lift (matrices_get projection_matrices (Z.of_nat head)) ;;
       k_transformed <- lift (np_dot_nd keys p') ;;
       for_each (seq 0 3) (fun i =>
         x <- lift (array_getitem q_transformed i) ;;
         col <- lift (column_of k_transformed i) ;;
         lift (assign_row (length book_names) (similarity_row x col)))) ;;
   (* 2. Attention weights for each head *)
   bars <-
     for_each (seq 0 2) (fun head =>
       lift (py_getitem_int attention_per_head head)) ;;
   (* 3. Final ratings for each book *)
   mret (similarities, book_names, bars, final_ratings))%py.

(** A finite float in [[0, 1]]. *)
Definition unit_float (x : float) : Prop :=
  exists r, x = Fin r /\ 0 <= r <= 1.

(** The namespace of the notebook with two heads of uniform weights bound
    to [attention_per_head]. *)
Definition two_heads_namespace : namespace :=
  namespace_with books [repeat (Fin 0.2) 5; repeat (Fin 0.2) 5].

(** [approx tol x y]: [x] is [y] up to [tol]. *)
Definition approx (tol x y : R) : Prop := Rabs (x - y) <= tol.

(** * Lemmas on floats and sums *)

(** Equal lists of concrete real expressions, entry by entry. *)
Ltac real_entries := repeat (f_equal; try lra; try (field; lra)).

Lemma Rsign_pos (r : R) : 0 < r -> Rsign r = Pos.
Proof.
  intros H. unfold Rsign.
  destruct (total_order_T r 0) as [[Hlt | Heq] | Hgt]; try reflexivity; lra.
Qed.

Lemma Rsign_neg (r : R) : r < 0 -> Rsign r = Neg.
Proof.
  intros H. unfold Rsign.
  destruct (total_order_T r 0) as [[Hlt | Heq] | Hgt]; try reflexivity; lra.
Qed.

Lemma Rsign_zero : Rsign 0 = Zero.
Proof.
  unfold Rsign.
  destruct (total_order_T 0 0) as [[Hlt | Heq] | Hgt]; try reflexivity; lra.
Qed.

Lemma fdiv_fin (a b : R) : b <> 0 -> fdiv (Fin a) (Fin b) = Fin (a / b).
Proof.
  intros Hb. simpl.
  destruct (Rtotal_order b 0) as [Hlt | [Heq | Hgt]].
  - now rewrite Rsign_neg.
  - contradiction.
  - now rewrite Rsign_pos.
Qed.

Lemma fold_left_fadd_fins (l : list R) (a : R) :
  fold_left fadd (fins l) (Fin a) = Fin (a + Rsum l).
Proof.
  revert a. induction l as [| x l IH]; intros a; simpl.
  - f_equal. lra.
  - rewrite IH. f_equal. lra.
Qed.

Lemma np_sum_fins (l : list R) : np_sum (fins l) = Fin (Rsum l).
Proof.
  unfold np_sum. rewrite fold_left_fadd_fins. f_equal. lra.
Qed.

Lemma zip_mul_fins (u v : list R) :
  zip_mul (fins u) (fins v) = fins (Rzip_mul u v).
Proof.
  revert v. induction u as [| x u IH]; intros [| y v]; simpl; try reflexivity.
  now rewrite IH.
Qed.

Lemma inner_fins (u v : list R) : inner (fins u) (fins v) = Fin (Rdot u v).
Proof.
  unfold inner, Rdot. now rewrite zip_mul_fins, np_sum_fins.
Qed.

Lemma fins_length (l : list R) : length (fins l) = length l.
Proof. apply length_map. Qed.

Lemma np_sum_seq (n : nat) (f : nat -> float) :
  np_sum (map f (seq 0 n)) = fsum_upto n f.
Proof.
  unfold np_sum. induction n as [| n IH]; [reflexivity |].
  rewrite seq_S, map_app, fold_left_app, IH. reflexivity.
Qed.

Lemma list_as_map_nth {A : Type} (l : list A) (d : A) :
  l = map (fun i => nth i l d) (seq 0 (length l)).
Proof.
  apply nth_ext with (d := d) (d' := d).
  - now rewrite length_map, length_seq.
  - intros n Hn.
    rewrite (nth_indep (map _ _) d (nth 0%nat l d))
      by now rewrite length_map, length_seq.
    rewrite (map_nth (fun i => nth i l d)).
    rewrite seq_nth by assumption. reflexivity.
Qed.

Lemma map_nth_seq {A B : Type} (h : A -> B) (l : list A) (d : A) :
  map h l = map (fun j => h (nth j l d)) (seq 0 (length l)).
Proof.
  rewrite (list_as_map_nth l d) at 1. now rewrite map_map.
Qed.

Lemma zip_mul_nth (u v : list float) :
  length u = length v ->
  zip_mul u v =
  map (fun k => fmul (nth k u NaN) (nth k v NaN)) (seq 0 (length u)).
Proof.
  revert v. induction u as [| x u IH]; intros [| y v] Hlen;
    simpl in *; try reflexivity; try discriminate.
  f_equal. rewrite <- seq_shift, map_map. apply IH. congruence.
Qed.

Lemma inner_dot_at (d : nat) (u v : list float) :
  length u = d -> length v = d -> inner u v = dot_at d u v.
Proof.
  intros Hu Hv. unfold inner, dot_at.
  rewrite zip_mul_nth by congruence.
  rewrite Hu. apply np_sum_seq.
Qed.

Lemma np_multiply_same_length (x y : list float) :
  length x = length y -> np_multiply x y = Ok (zip_mul x y).
Proof.
  intros Hlen. unfold np_multiply.
  destruct x as [| a [| a' x]]; destruct y as [| b [| b' y]];
    simpl in *; try discriminate; try reflexivity.
  injection Hlen as Hlen. now rewrite Hlen, Nat.eqb_refl.
Qed.

Lemma np_dot_ok (keys : ndarray2) (query : list float) :
  ncols keys = length query ->
  np_dot keys query = Ok (map (fun r => inner r query) (rows keys)).
Proof.
  intros H. unfold np_dot. now rewrite H, Nat.eqb_refl.
Qed.

Lemma np_dot_raise (keys : ndarray2) (query : list float) :
  ncols keys <> length query -> np_dot keys query = Raise ValueError.
Proof.
  intros H. unfold np_dot.
  destruct (Nat.eqb_spec (ncols keys) (length query)); [contradiction | reflexivity].
Qed.

(** The scores that the function computes, as a list. *)
Lemma attention_scores_ok (keys : ndarray2) (query : list float)
    (temperature : float) :
  ncols keys = length query ->
  attention_scores keys query temperature =
  Ok (map (fun r => fdiv (inner r query) temperature) (rows keys)).
Proof.
  intros H. unfold attention_scores. rewrite np_dot_ok by assumption.
  simpl. now rewrite map_map.
Qed.

Lemma softmax_length (s : list float) : length (softmax s) = length s.
Proof. unfold softmax. now rewrite !length_map. Qed.

(** With shapes that fit, the function returns, whatever the temperature. *)
Lemma compute_attention_ok (keys : ndarray2) (query values : list float)
    (temperature : float) :
  ncols keys = length query ->
  length values = length (rows keys) ->
  let scores := map (fun r => fdiv (inner r query) temperature) (rows keys) in
  compute_attention keys query values temperature =
  Ok (softmax scores, np_sum (zip_mul values (softmax scores))).
Proof.
  intros Hq Hv scores. unfold compute_attention.
  rewrite attention_scores_ok by assumption. simpl.
  fold scores.
  rewrite np_multiply_same_length; [reflexivity |].
  unfold scores. now rewrite softmax_length, length_map.
Qed.

Lemma scores_index_wise (keys : ndarray2) (query : list float)
    (temperature : float) (h : float -> float) :
  wf_ndarray2 keys ->
  length query = ncols keys ->
  map (fun r => h (fdiv (inner r query) temperature)) (rows keys) =
  map (fun j => h (score_at keys query temperature j))
      (seq 0 (length (rows keys))).
Proof.
  intros Hwf Hq.
  rewrite (map_nth_seq _ (rows keys) []).
  apply map_ext_in. intros j Hj. apply in_seq in Hj.
  unfold score_at. rewrite (inner_dot_at (ncols keys)); auto.
  unfold wf_ndarray2 in Hwf. rewrite Forall_forall in Hwf.
  apply Hwf. apply nth_In. lia.
Qed.

Lemma softmax_index_wise (keys : ndarray2) (query : list float)
    (temperature : float) (i : nat) :
  wf_ndarray2 keys ->
  length query = ncols keys ->
  (i < length (rows keys))%nat ->
  nth i (softmax (map (fun r => fdiv (inner r query) temperature) (rows keys)))
      NaN =
  weight_at keys query temperature i.
Proof.
  intros Hwf Hq Hi. unfold softmax. rewrite !map_map.
  rewrite (scores_index_wise keys query temperature fexp) by assumption.
  rewrite (scores_index_wise keys query temperature
             (fun s => fdiv (fexp s) _)) by assumption.
  rewrite np_sum_seq.
  rewrite (nth_indep _ NaN
             (fdiv (fexp (score_at keys query temperature 0)) 
                   (fsum_upto (length (rows keys))
                      (fun j => fexp (score_at keys query temperature j)))))
    by now rewrite length_map, length_seq.
  rewrite (map_nth (fun j => fdiv (fexp (score_at keys query temperature j)) _)).
  rewrite seq_nth by assumption. reflexivity.
Qed.

(** * Single-head attention: the formulas *)

(** C1.  When the keys and the query have the same dimension [d] and there
    are as many values as keys, [compute_attention] returns
    [(weights, aggregate)] with
    [weights[i] = exp(score[i]) / sum_j exp(score[j])], where
    [score[i] = dot(keys[i], query) / temperature], and
    [aggregate = sum_i values[i] * weights[i]].  The exponentials are taken
    of the scores themselves: no maximum is subtracted.  This holds for
    every temperature, hence for every positive one. *)
Theorem compute_attention_formulas (keys : ndarray2)
    (query values : list float) (temperature : float) (d : nat) :
  wf_ndarray2 keys ->
  ncols keys = d ->
  length query = d ->
  length (rows keys) = length values ->
  exists weights aggregate,
    compute_attention keys query values temperature = Ok (weights, aggregate)
    /\ length weights = length (rows keys)
    /\ (forall i, (i < length (rows keys))%nat ->
          nth i weights NaN = weight_at keys query temperature i)
    /\ aggregate =
       fsum_upto (length (rows keys))
                 (fun i => fmul (nth i values NaN) (nth i weights NaN)).
Proof.
  intros Hwf Hd Hq Hv.
  eexists. eexists. split; [| split; [| split]].
  - apply compute_attention_ok; congruence.
  - now rewrite softmax_length, length_map.
  - intros i Hi. apply softmax_index_wise; auto. congruence.
  - rewrite zip_mul_nth by now rewrite softmax_length, length_map.
    rewrite <- Hv. apply np_sum_seq.
Qed.

Lemma compute_attention_formulas_witness :
  exists weights aggregate,
    compute_attention scenario_keys scenario_query scenario_values (Fin 1)
    = Ok (weights, aggregate)
    /\ length weights = 2%nat
    /\ (forall i, (i < 2)%nat ->
          nth i weights NaN = weight_at scenario_keys scenario_query (Fin 1) i)
    /\ aggregate =
       fsum_upto 2 (fun i => fmul (nth i scenario_values NaN) (nth i weights NaN)).
Proof.
  apply (compute_attention_formulas scenario_keys scenario_query
           scenario_values (Fin 1) 2).
  - repeat constructor.
  - reflexivity.
  - reflexivity.
  - reflexivity.
Defined.

(** * Finite scores: the real-valued softmax *)

Lemma fexp_fins (l : list R) : map fexp (fins l) = fins (map exp l).
Proof. unfold fins. rewrite !map_map. reflexivity. Qed.

Lemma Rsum_exp_pos (l : list R) (x : R) :
  In x l -> 0 < Rsum (map exp l).
Proof.
  induction l as [| y l IH]; simpl; [contradiction |].
  intros [-> | Hin].
  - assert (0 <= Rsum (map exp l)).
    { clear. induction l as [| z l IH]; simpl; [lra |].
      pose proof (exp_pos z). lra. }
    pose proof (exp_pos x). lra.
  - specialize (IH Hin). pose proof (exp_pos y). lra.
Qed.

Lemma softmax_fins (ss : list R) : softmax (fins ss) = fins (Rsoftmax ss).
Proof.
  unfold softmax. rewrite fexp_fins, np_sum_fins.
  unfold fins, Rsoftmax. rewrite !map_map.
  apply map_ext_in. intros x Hx.
  apply fdiv_fin. pose proof (Rsum_exp_pos ss x Hx). lra.
Qed.

Lemma Rsum_map_div {A : Type} (f : A -> R) (c : R) (l : list A) :
  Rsum (map (fun x => f x / c) l) = Rsum (map f l) / c.
Proof.
  induction l as [| x l IH]; simpl; [lra |]. rewrite IH. lra.
Qed.

Lemma Rsum_Rsoftmax (ss : list R) : ss <> [] -> Rsum (Rsoftmax ss) = 1.
Proof.
  intros Hne. unfold Rsoftmax.
  rewrite (Rsum_map_div exp).
  destruct ss as [| x ss]; [contradiction |].
  pose proof (Rsum_exp_pos (x :: ss) x (or_introl eq_refl)).
  field. lra.
Qed.

Lemma Rsoftmax_pos (ss : list R) (w : R) : In w (Rsoftmax ss) -> 0 < w.
Proof.
  unfold Rsoftmax. intros Hin. apply in_map_iff in Hin.
  destruct Hin as [x [<- Hx]].
  apply Rdiv_lt_0_compat; [apply exp_pos | apply (Rsum_exp_pos ss x Hx)].
Qed.

Lemma Rsoftmax_length (ss : list R) : length (Rsoftmax ss) = length ss.
Proof. apply length_map. Qed.

Lemma attention_scores_fin (d : nat) (rs : list (list R)) (q : list R) (t : R) :
  t <> 0 ->
  length q = d ->
  attention_scores (fin_array d rs) (fins q) (Fin t) =
  Ok (fins (Rscores rs q t)).
Proof.
  intros Ht Hq. rewrite attention_scores_ok
    by (simpl; now rewrite fins_length).
  f_equal. simpl. unfold Rscores, fins at 3. rewrite !map_map.
  apply map_ext. intros r. rewrite inner_fins. now apply fdiv_fin.
Qed.

(** On finite inputs, at a temperature that is not zero, every float of the
    result is finite and the function is the real-valued softmax. *)
Lemma compute_attention_fin (d : nat) (rs : list (list R)) (q vs : list R)
    (t : R) :
  t <> 0 ->
  length q = d ->
  length vs = length rs ->
  compute_attention (fin_array d rs) (fins q) (fins vs) (Fin t) =
  Ok (fins (Rsoftmax (Rscores rs q t)),
      Fin (Rdot vs (Rsoftmax (Rscores rs q t)))).
Proof.
  intros Ht Hq Hv. unfold compute_attention.
  rewrite attention_scores_fin by assumption. simpl.
  rewrite softmax_fins.
  rewrite np_multiply_same_length.
  - simpl. now rewrite <- inner_fins.
  - rewrite !fins_length, Rsoftmax_length. unfold Rscores.
    now rewrite length_map.
Qed.

(** * The weights are a probability distribution *)


Lemma scenario_scores :
  attention_scores scenario_keys scenario_query (Fin 1) = Ok (fins [1; 0]).
Proof.
  unfold scenario_keys, scenario_query.
  rewrite attention_scores_fin by (lra || reflexivity).
  unfold Rscores, Rdot, Rsum. simpl. real_entries.
Qed.


(** Without items there are no weights, and their sum is [0]: the case
    that the condition on the items excludes. *)
Lemma no_items_no_weights (d : nat) (query : list float) (temperature : float) :
  length query = d ->
  compute_attention (mk_ndarray2 d []) query [] temperature = Ok ([], Fin 0)
  /\ np_sum [] = Fin 0.
Proof.
  intros Hq. split; [| reflexivity].
  now rewrite compute_attention_ok.
Qed.

(** * The aggregate is a convex combination *)

Lemma Rlist_min_le (x : R) (l : list R) (v : R) :
  In v l -> Rlist_min x l <= v.
Proof.
  induction l as [| y l IH]; simpl; [contradiction |].
  intros [-> | Hin].
  - apply Rmin_l.
  - eapply Rle_trans; [apply Rmin_r | now apply IH].
Qed.

Lemma Rlist_max_ge (x : R) (l : list R) (v : R) :
  In v l -> v <= Rlist_max x l.
Proof.
  induction l as [| y l IH]; simpl; [contradiction |].
  intros [-> | Hin].
  - apply Rmax_l.
  - eapply Rle_trans; [now apply IH | apply Rmax_r].
Qed.

Lemma Rdot_between (lo hi : R) (vs ws : list R) :
  length vs = length ws ->
  (forall w, In w ws -> 0 <= w) ->
  (forall v, In v vs -> lo <= v <= hi) ->
  lo * Rsum ws <= Rdot vs ws <= hi * Rsum ws.
Proof.
  unfold Rdot. revert ws.
  induction vs as [| v vs IH]; intros [| w ws] Hlen Hw Hv;
    simpl in *; try discriminate; [lra |].
  assert (H0 : 0 <= w) by (apply Hw; now left).
  assert (Hb : lo <= v <= hi) by (apply Hv; now left).
  assert (IH' : lo * Rsum ws <= Rsum (Rzip_mul vs ws) <= hi * Rsum ws).
  { apply IH; [congruence | intros; apply Hw; now right
              | intros; apply Hv; now right]. }
  nra.
Qed.



(** * A numeric scenario *)

Lemma exp_double (x : R) : exp (2 * x) = exp x * exp x.
Proof. rewrite <- exp_plus. f_equal. lra. Qed.

Lemma exp_square_lower (a b x : R) :
  0 <= a -> a <= exp x -> b <= a * a -> b <= exp (2 * x).
Proof. intros Ha Hx Hb. rewrite exp_double. nra. Qed.

Lemma exp_square_upper (a b x : R) :
  exp x <= a -> a * a <= b -> exp (2 * x) <= b.
Proof.
  intros Hx Hb. rewrite exp_double. pose proof (exp_pos x). nra.
Qed.

(** Bounds on [e], from [1 + x <= exp x] at [x = 1/1024] and
    [x = - 1/1024], squared ten times. *)
Lemma exp_1_bounds : 2.716 < exp 1 < 2.72.
Proof.
  replace 1 with (2 * (2 * (2 * (2 * (2 * (2 * (2 * (2 * (2 * (2 * (1 / 1024)))))))))))
    by lra.
  split.
  - apply Rlt_le_trans with 2.716952707; [lra |].
    apply exp_square_lower with 1.648318145; [lra | | lra].
    apply exp_square_lower with 1.283868430; [lra | | lra].
    apply exp_square_lower with 1.133079181; [lra | | lra].
    apply exp_square_lower with 1.064461921; [lra | | lra].
    apply exp_square_lower with 1.031727639; [lra | | lra].
    apply exp_square_lower with 1.015739947; [lra | | lra].
    apply exp_square_lower with 1.007839247; [lra | | lra].
    apply exp_square_lower with 1.003911972; [lra | | lra].
    apply exp_square_lower with 1.001954077; [lra | | lra].
    apply exp_square_lower with 1.000976562; [lra | | lra].
    pose proof (exp_ineq1_le (1 / 1024)). lra.
  - apply Rle_lt_trans with 2.719613781; [| lra].
    apply exp_square_upper with 1.649125156; [| lra].
    apply exp_square_upper with 1.284182680; [| lra].
    apply exp_square_upper with 1.133217843; [| lra].
    apply exp_square_upper with 1.064527051; [| lra].
    apply exp_square_upper with 1.031759202; [| lra].
    apply exp_square_upper with 1.015755483; [| lra].
    apply exp_square_upper with 1.007846954; [| lra].
    apply exp_square_upper with 1.003915810; [| lra].
    apply exp_square_upper with 1.001955992; [| lra].
    apply exp_square_upper with 1.000977518; [| lra].
    pose proof (exp_ineq1_le (- (1 / 1024))) as H.
    rewrite exp_Ropp in H.
    pose proof (exp_pos (1 / 1024)) as Hp.
    assert (H1 : exp (1 / 1024) * / exp (1 / 1024) = 1)
      by (apply Rinv_r; lra).
    nra.
Qed.

(** The scenario, evaluated: the weights are [e/(e+1)] and [1/(e+1)]. *)
Lemma scenario_result :
  compute_attention scenario_keys scenario_query scenario_values (Fin 1) =
  Ok (fins [exp 1 / (exp 1 + 1); 1 / (exp 1 + 1)],
      Fin (10 * (exp 1 / (exp 1 + 1)) + 20 * (1 / (exp 1 + 1)))).
Proof.
  unfold scenario_keys, scenario_query, scenario_values.
  rewrite compute_attention_fin by (lra || reflexivity).
  assert (Hs : Rscores [[1; 0]; [0; 1]] [1; 0] 1 = [1; 0]).
  { unfold Rscores, Rdot, Rsum. simpl. real_entries. }
  rewrite Hs. unfold Rsoftmax, Rdot, Rsum. simpl. rewrite exp_0.
  pose proof (exp_pos 1). real_entries.
Qed.

Lemma scenario_weight_bounds :
  0.2688 < 1 / (exp 1 + 1) < 0.2692 /\
  exp 1 / (exp 1 + 1) = 1 - 1 / (exp 1 + 1).
Proof.
  pose proof exp_1_bounds as [Hl Hu].
  set (u := 1 / (exp 1 + 1)).
  assert (Hu1 : u * (exp 1 + 1) = 1) by (unfold u; field; lra).
  assert (Hpos : 0 < u) by (unfold u; apply Rdiv_lt_0_compat; lra).
  split; [split; nra |].
  unfold u. field. lra.
Qed.

(** C9, as the code has it.  For [keys=[[1,0],[0,1]]], [query=[1,0]],
    [values=[10,20]] and temperature 1 the scores are [[1, 0]], the weights
    are [0.731] and [0.269] to three decimals, and the aggregate is [12.69]
    to two decimals. *)
Theorem scenario_values_computed :
  attention_scores scenario_keys scenario_query (Fin 1) = Ok (fins [1; 0])
  /\ exists w0 w1 a,
       compute_attention scenario_keys scenario_query scenario_values (Fin 1)
       = Ok (fins [w0; w1], Fin a)
       /\ approx 0.0005 w0 0.731
       /\ approx 0.0005 w1 0.269
       /\ approx 0.005 a 12.69.
Proof.
  split; [exact scenario_scores |].
  do 3 eexists. split; [exact scenario_result |].
  destruct scenario_weight_bounds as [[Hl Hu] Heq].
  rewrite Heq. unfold approx.
  repeat split; apply Rabs_le; lra.
Qed.

(** C9, as the specification states it.  The aggregate of the scenario is
    not [12.62], not even up to [0.05]. *)
Lemma scenario_aggregate_not_12_62 :
  ~ (exists weights a,
       compute_attention scenario_keys scenario_query scenario_values (Fin 1)
       = Ok (weights, Fin a)
       /\ approx 0.05 a 12.62).
Proof.
  intros [weights [a [H Ha]]].
  rewrite scenario_result in H. injection H as _ Hagg.
  destruct scenario_weight_bounds as [[Hl Hu] Heq].
  rewrite Heq in Hagg. unfold approx in Ha.
  unfold Rabs in Ha. destruct (Rcase_abs (a - 12.62)); lra.
Qed.

(** * Failures of the single-head scorer *)

Lemma np_multiply_raise (x y : list float) :
  np_multiply x y = Raise ValueError <->
  (length x <> length y /\ length x <> 1%nat /\ length y <> 1%nat).
Proof.
  unfold np_multiply.
  destruct x as [| a [| a' x]]; destruct y as [| b [| b' y]]; simpl;
    try (split; [discriminate | intros (H1 & H2 & H3); congruence]);
    try (split; [intros _; repeat split; discriminate | reflexivity]).
  destruct (Nat.eqb_spec (length x) (length y)) as [E | E].
  - split; [discriminate | intros (H1 & _); congruence].
  - split; [| reflexivity]. intros _.
    repeat split; try discriminate. congruence.
Qed.

Lemma np_multiply_only_ValueError (x y : list float) (e : exn) :
  np_multiply x y = Raise e -> e = ValueError.
Proof.
  unfold np_multiply.
  destruct x as [| a [| a' x]]; destruct y as [| b [| b' y]]; simpl;
    try discriminate; try congruence;
    destruct (Nat.eqb (length x) (length y)); try discriminate; congruence.
Qed.

(** What [compute_attention] does once the dot product went through. *)
Lemma compute_attention_after_dot (keys : ndarray2)
    (query values : list float) (temperature : float) :
  ncols keys = length query ->
  compute_attention keys query values temperature =
  (let weights :=
     softmax (map (fun r => fdiv (inner r query) temperature) (rows keys)) in
   let! products := np_multiply values weights in
   Ok (weights, np_sum products)).
Proof.
  intros H. unfold compute_attention.
  rewrite attention_scores_ok by assumption. reflexivity.
Qed.

Lemma compute_attention_raise (keys : ndarray2) (query values : list float)
    (temperature : float) :
  compute_attention keys query values temperature = Raise ValueError <->
  shapes_rejected keys query values.
Proof.
  unfold shapes_rejected.
  destruct (Nat.eq_dec (ncols keys) (length query)) as [E | E].
  - rewrite compute_attention_after_dot by assumption. cbv zeta.
    set (w := softmax _).
    assert (Hw : length w = length (rows keys))
      by (unfold w; now rewrite softmax_length, length_map).
    pose proof (np_multiply_raise values w) as Hm. rewrite Hw in Hm.
    destruct (np_multiply values w) as [p | e] eqn:Hp; simpl.
    + split; [discriminate |].
      intros [H | H]; [contradiction |].
      apply Hm in H. discriminate.
    + apply np_multiply_only_ValueError in Hp as He. subst e.
      split; [| reflexivity]. intros _. right. now apply Hm.
  - unfold compute_attention, attention_scores.
    rewrite np_dot_raise by assumption. simpl.
    split; [intros _; now left | reflexivity].
Qed.

Lemma compute_attention_only_ValueError (keys : ndarray2)
    (query values : list float) (temperature : float) (e : exn) :
  compute_attention keys query values temperature = Raise e -> e = ValueError.
Proof.
  destruct (Nat.eq_dec (ncols keys) (length query)) as [E | E].
  - rewrite compute_attention_after_dot by assumption. cbv zeta.
    destruct (np_multiply values _) as [p | e'] eqn:Hp; simpl;
      [discriminate |].
    intros H. injection H as <-.
    now apply np_multiply_only_ValueError in Hp.
  - unfold compute_attention, attention_scores.
    rewrite np_dot_raise by assumption. simpl. congruence.
Qed.

(** C5, as the code has it.  [compute_attention] fails, with numpy's
    [ValueError] and with nothing else, exactly when the keys and the query
    differ in dimension, or the values and the keys differ in number and
    neither number is one.  With [keys=[[1,0,0]]] and [query=[1,0]] it fails
    for all values and every temperature. *)
Theorem compute_attention_fails_iff (keys : ndarray2)
    (query values : list float) (temperature : float) :
  (compute_attention keys query values temperature = Raise ValueError <->
   shapes_rejected keys query values)
  /\ (forall e, compute_attention keys query values temperature = Raise e ->
        e = ValueError)
  /\ compute_attention mismatch_keys mismatch_query values temperature
     = Raise ValueError.
Proof.
  split; [apply compute_attention_raise |].
  split; [intros e; apply compute_attention_only_ValueError |].
  reflexivity.
Qed.

(** One value against two keys: the value is stretched over the weights. *)
Lemma one_value_result :
  compute_attention scenario_keys scenario_query (fins [10]) (Fin 1) =
  Ok (fins [exp 1 / (exp 1 + 1); 1 / (exp 1 + 1)], Fin 10).
Proof.
  unfold compute_attention. rewrite scenario_scores.
  cbv beta iota zeta delta [obind]. rewrite softmax_fins.
  unfold Rsoftmax, Rsum. simpl. rewrite exp_0.
  pose proof (exp_pos 1). unfold np_sum. simpl. real_entries.
Qed.

(** C5, as the specification states it.  Two keys and one value differ in
    number, and [compute_attention] returns: numpy stretches the single
    value. *)
Lemma one_value_is_broadcast :
  ~ (compute_attention scenario_keys scenario_query (fins [10]) (Fin 1)
     = Raise ValueError
     <-> dimension_mismatch scenario_keys scenario_query (fins [10])).
Proof.
  intros [_ H].
  assert (Hm : dimension_mismatch scenario_keys scenario_query (fins [10]))
    by (right; simpl; discriminate).
  specialize (H Hm).
  apply compute_attention_raise in H.
  destruct H as [H | (_ & H & _)]; apply H; reflexivity.
Qed.

Lemma compute_attention_raise_any (keys : ndarray2)
    (query values : list float) (temperature : float) (e : exn) :
  compute_attention keys query values temperature = Raise e <->
  (e = ValueError /\ shapes_rejected keys query values).
Proof.
  split.
  - intros H. pose proof (compute_attention_only_ValueError _ _ _ _ _ H).
    subst e. split; [reflexivity |]. now apply compute_attention_raise in H.
  - intros [-> H]. now apply compute_attention_raise.
Qed.

(** C6, as the code has it.  The temperature is never examined.  A call
    with temperature [t <= 0] fails exactly when the same call fails at any
    other temperature, that is on its shapes; with shapes that fit it
    returns the weights and the aggregate of the same formulas.  (At
    [t = 0] the division by zero makes every score an infinity or [nan].) *)
Theorem nonpositive_temperature_accepted (keys : ndarray2)
    (query values : list float) (t : R) :
  t <= 0 ->
  (forall temperature' e,
     compute_attention keys query values (Fin t) = Raise e <->
     compute_attention keys query values temperature' = Raise e)
  /\ (wf_ndarray2 keys ->
      ncols keys = length query ->
      length (rows keys) = length values ->
      exists weights aggregate,
        compute_attention keys query values (Fin t) = Ok (weights, aggregate)
        /\ (forall i, (i < length (rows keys))%nat ->
              nth i weights NaN = weight_at keys query (Fin t) i)
        /\ aggregate =
           fsum_upto (length (rows keys))
                     (fun i => fmul (nth i values NaN) (nth i weights NaN))).
Proof.
  intros _. split.
  - intros temperature' e. now rewrite !compute_attention_raise_any.
  - intros Hwf Hq Hv.
    eexists. eexists. split; [| split].
    + apply compute_attention_ok; congruence.
    + intros i Hi. apply softmax_index_wise; auto.
    + rewrite zip_mul_nth by now rewrite softmax_length, length_map.
      rewrite <- Hv. apply np_sum_seq.
Qed.

Lemma nonpositive_temperature_accepted_witness :
  (forall temperature' e,
     compute_attention scenario_keys scenario_query scenario_values (Fin (-1))
     = Raise e <->
     compute_attention scenario_keys scenario_query scenario_values temperature'
     = Raise e)
  /\ exists weights aggregate,
       compute_attention scenario_keys scenario_query scenario_values
         (Fin (-1)) = Ok (weights, aggregate)
       /\ (forall i, (i < length (rows scenario_keys))%nat ->
             nth i weights NaN
             = weight_at scenario_keys scenario_query (Fin (-1)) i)
       /\ aggregate =
          fsum_upto (length (rows scenario_keys))
                    (fun i => fmul (nth i scenario_values NaN)
                                   (nth i weights NaN)).
Proof.
  destruct (nonpositive_temperature_accepted scenario_keys scenario_query
              scenario_values (-1)) as [Hfail Hok].
  - lra.
  - split; [exact Hfail |].
    apply Hok.
    + repeat constructor.
    + reflexivity.
    + reflexivity.
Defined.

(** C6, as the specification states it.  At temperature [-1] the scenario
    does not fail. *)
Lemma negative_temperature_returns :
  ~ (exists e,
       compute_attention scenario_keys scenario_query scenario_values
         (Fin (-1)) = Raise e).
Proof.
  intros [e H].
  rewrite compute_attention_ok in H by reflexivity.
  discriminate.
Qed.

(** At temperature [0] the scenario returns [nan] weights and a [nan]
    aggregate: [1/0] is [+inf], [0/0] is [nan]. *)
Lemma zero_temperature_returns_nan :
  compute_attention scenario_keys scenario_query scenario_values (Fin 0)
  = Ok ([NaN; NaN], NaN).
Proof.
  assert (H1 : fdiv (Fin (Rdot [1; 0] [1; 0])) (Fin 0) = PInf).
  { unfold fdiv. rewrite Rsign_zero, Rsign_pos; [reflexivity |].
    unfold Rdot, Rsum. simpl. lra. }
  assert (H2 : fdiv (Fin (Rdot [0; 1] [1; 0])) (Fin 0) = NaN).
  { unfold fdiv. rewrite Rsign_zero.
    replace (Rdot [0; 1] [1; 0]) with 0
      by (unfold Rdot, Rsum; simpl; lra).
    now rewrite Rsign_zero. }
  assert (Hs : attention_scores scenario_keys scenario_query (Fin 0)
               = Ok [PInf; NaN]).
  { rewrite attention_scores_ok by reflexivity.
    unfold scenario_keys, scenario_query, fin_array. cbn [rows map].
    now rewrite !inner_fins, H1, H2. }
  unfold compute_attention. rewrite Hs. reflexivity.
Qed.

(** * Limits of the weights in the temperature *)

Lemma nth_map_default {A : Type} (f : A -> R) (l : list A) (d : A) (i : nat) :
  (i < length l)%nat -> nth i (map f l) 0 = f (nth i l d).
Proof.
  intros Hi. rewrite (nth_indep _ 0 (f d)) by now rewrite length_map.
  apply map_nth.
Qed.

Lemma nth_Rsoftmax (ss : list R) (i : nat) :
  (i < length ss)%nat ->
  nth i (Rsoftmax ss) 0 = exp (nth i ss 0) / Rsum (map exp ss).
Proof.
  intros Hi. unfold Rsoftmax.
  now rewrite (nth_map_default _ ss 0).
Qed.

Lemma nth_Rscores (rs : list (list R)) (q : list R) (t : R) (i : nat) :
  (i < length rs)%nat ->
  nth i (Rscores rs q t) 0 = Rdot (nth i rs []) q / t.
Proof.
  intros Hi. unfold Rscores. now rewrite (nth_map_default _ rs []).
Qed.

Lemma Rscores_length (rs : list (list R)) (q : list R) (t : R) :
  length (Rscores rs q t) = length rs.
Proof. apply length_map. Qed.

(** The weights on finite keys and query, whatever the values. *)
Lemma compute_attention_fin_weights (d : nat) (rs : list (list R))
    (q : list R) (values : list float) (t : R) :
  t <> 0 ->
  length q = d ->
  length values = length rs ->
  returns_weights (fin_array d rs) (fins q) values t
    (Rsoftmax (Rscores rs q t)).
Proof.
  intros Ht Hq Hv. unfold returns_weights, compute_attention.
  rewrite attention_scores_fin by assumption. simpl.
  rewrite softmax_fins.
  rewrite np_multiply_same_length; [eexists; reflexivity |].
  now rewrite fins_length, Rsoftmax_length, Rscores_length.
Qed.

Lemma Rsum_bounds (lo hi : R) (l : list R) :
  (forall y, In y l -> lo <= y <= hi) ->
  INR (length l) * lo <= Rsum l <= INR (length l) * hi.
Proof.
  induction l as [| x l IH]; intros H.
  - simpl. lra.
  - change (length (x :: l)) with (S (length l)). rewrite S_INR.
    simpl Rsum.
    assert (lo <= x <= hi) by (apply H; now left).
    assert (INR (length l) * lo <= Rsum l <= INR (length l) * hi)
      by (apply IH; intros; apply H; now right).
    lra.
Qed.

(** Scores within [x] of zero, [x <= 1/4]: every weight is within [4x] of
    [1/N]. *)
Lemma softmax_near_uniform (ss : list R) (x : R) (i : nat) :
  0 <= x <= 1 / 4 ->
  (forall s, In s ss -> - x <= s <= x) ->
  (i < length ss)%nat ->
  Rabs (nth i (Rsoftmax ss) 0 - 1 / INR (length ss)) <= 4 * x.
Proof.
  intros Hx Hs Hi.
  rewrite nth_Rsoftmax by assumption.
  set (n := INR (length ss)).
  assert (Hn : 1 <= n).
  { unfold n. change 1 with (INR 1). apply le_INR. lia. }
  set (lo := 1 - x). set (hi := / (1 - x)).
  assert (Hlohi : lo * hi = 1) by (unfold lo, hi; field; lra).
  assert (Hlo : 0 < lo) by (unfold lo; lra).
  assert (Hhi : 0 < hi) by (unfold hi; apply Rinv_0_lt_compat; lra).
  assert (Hexp : forall s, - x <= s <= x -> lo <= exp s <= hi).
  { intros s [H1 H2]. split.
    - pose proof (exp_ineq1_le s). unfold lo. lra.
    - pose proof (exp_ineq1_le (- s)) as H. rewrite exp_Ropp in H.
      pose proof (exp_pos s) as Hp.
      assert (He : exp s * / exp s = 1) by (apply Rinv_r; lra).
      assert (Hc : exp s * (1 - x) <= 1) by nra.
      unfold lo in *. nra. }
  assert (HS : n * lo <= Rsum (map exp ss) <= n * hi).
  { unfold n. rewrite <- (length_map exp ss). apply Rsum_bounds.
    intros y Hy. apply in_map_iff in Hy. destruct Hy as [s [<- Hin]].
    apply Hexp. now apply Hs. }
  assert (HE : lo <= exp (nth i ss 0) <= hi)
    by (apply Hexp, Hs, nth_In; assumption).
  set (S := Rsum (map exp ss)) in *. set (E := exp (nth i ss 0)) in *.
  assert (HSpos : 0 < S) by nra.
  set (w := E / S).
  assert (Hw : w * S = E) by (unfold w; field; lra).
  set (u := 1 / n).
  assert (Hu : u * n = 1) by (unfold u; field; lra).
  assert (Hupos : 0 < u <= 1).
  { split; [unfold u; apply Rdiv_lt_0_compat; lra | nra]. }
  (* hi <= 1 + 2x when x <= 1/4 *)
  assert (Hhi2 : hi <= 1 + 2 * x) by (unfold lo in *; nra).
  assert (Hwu : - (4 * x) <= w - u <= 4 * x).
  { assert (Hup : w * (n * lo) <= hi) by nra.
    assert (Hdn : lo <= w * (n * hi)).
    { assert (0 < w) by (unfold w; apply Rdiv_lt_0_compat; lra). nra. }
    (* w n <= hi / lo = hi^2 and w n >= lo / hi = lo^2 *)
    assert (Hup' : w * n <= hi * hi) by nra.
    assert (Hdn' : lo * lo <= w * n) by nra.
    assert (H1 : hi * hi <= 1 + 4 * x + 4 * x * x) by nra.
    assert (H2 : 1 - 2 * x <= lo * lo) by (unfold lo; nra).
    assert (H3 : (w - u) * n <= 4 * x + 4 * x * x) by nra.
    assert (H4 : - (2 * x) <= (w - u) * n) by nra.
    split; nra. }
  apply Rabs_le. lra.
Qed.

Lemma Rsum_nonneg (l : list R) :
  (forall y, In y l -> 0 <= y) -> 0 <= Rsum l.
Proof.
  induction l as [| x l IH]; intros H; simpl; [lra |].
  assert (0 <= x) by (apply H; now left).
  assert (0 <= Rsum l) by (apply IH; intros; apply H; now right).
  lra.
Qed.

Lemma Rsum_ge_member (l : list R) (x : R) :
  (forall y, In y l -> 0 <= y) -> In x l -> x <= Rsum l.
Proof.
  induction l as [| y l IH]; intros H Hin; simpl; [contradiction |].
  assert (Hy : 0 <= y) by (apply H; now left).
  assert (Hl : 0 <= Rsum l) by (apply Rsum_nonneg; intros; apply H; now right).
  destruct Hin as [-> | Hin]; [lra |].
  assert (x <= Rsum l) by (apply IH; [intros; apply H; now right | assumption]).
  lra.
Qed.

Lemma dot_bound_ge (rs : list (list R)) (q : list R) (r : list R) :
  In r rs -> Rabs (Rdot r q) <= dot_bound rs q.
Proof.
  intros Hin. unfold dot_bound. apply Rsum_ge_member.
  - intros y Hy. apply in_map_iff in Hy. destruct Hy as [r' [<- _]].
    apply Rabs_pos.
  - apply in_map_iff. now exists r.
Qed.

Lemma dot_bound_nonneg (rs : list (list R)) (q : list R) :
  0 <= dot_bound rs q.
Proof.
  unfold dot_bound. apply Rsum_nonneg.
  intros y Hy. apply in_map_iff in Hy. destruct Hy as [r' [<- _]].
  apply Rabs_pos.
Qed.

Lemma gap_exists (l : list R) (m : nat) (M : R) :
  (forall j, (j < length l)%nat -> j <> m -> nth j l 0 < M) ->
  exists delta, 0 < delta /\
    forall j, (j < length l)%nat -> j <> m -> nth j l 0 + delta <= M.
Proof.
  revert m. induction l as [| x l IH]; intros m H.
  - exists 1. split; [lra |]. intros j Hj. simpl in Hj. lia.
  - destruct m as [| m].
    + destruct (IH (length l)) as [delta [Hd Hgap]].
      { intros j Hj _. apply (H (S j)); simpl; lia. }
      exists delta. split; [assumption |].
      intros [| j] Hj Hne; [contradiction |].
      simpl. apply Hgap; simpl in Hj; lia.
    + destruct (IH m) as [delta [Hd Hgap]].
      { intros j Hj Hne. apply (H (S j)); simpl; lia. }
      assert (Hx : x < M) by (apply (H 0%nat); simpl; lia).
      exists (Rmin delta (M - x)). split.
      * apply Rmin_glb_lt; lra.
      * intros [| j] Hj Hne; simpl.
        -- pose proof (Rmin_r delta (M - x)). lra.
        -- pose proof (Rmin_l delta (M - x)).
           assert (nth j l 0 + delta <= M)
             by (apply Hgap; simpl in Hj; lia).
           lra.
Qed.

Lemma Rsum_le_bound (c : R) (l : list R) :
  (forall j, (j < length l)%nat -> nth j l 0 <= c) ->
  Rsum l <= INR (length l) * c.
Proof.
  induction l as [| x l IH]; intros H.
  - simpl. lra.
  - change (length (x :: l)) with (S (length l)). rewrite S_INR. simpl Rsum.
    assert (x <= c) by (apply (H 0%nat); simpl; lia).
    assert (Rsum l <= INR (length l) * c).
    { apply IH. intros j Hj. apply (H (S j)). simpl. lia. }
    lra.
Qed.

Lemma Rsum_le_one_exempt (c : R) (l : list R) (m : nat) :
  0 <= c ->
  (m < length l)%nat ->
  (forall j, (j < length l)%nat -> j <> m -> nth j l 0 <= c) ->
  Rsum l <= nth m l 0 + INR (length l) * c.
Proof.
  intros Hc. revert m. induction l as [| x l IH]; intros m Hm H.
  - simpl in Hm. lia.
  - change (length (x :: l)) with (S (length l)). rewrite S_INR. simpl Rsum.
    destruct m as [| m]; simpl nth.
    + assert (Rsum l <= INR (length l) * c).
      { apply Rsum_le_bound. intros j Hj. apply (H (S j)); simpl; lia. }
      lra.
    + assert (x <= c) by (apply (H 0%nat); simpl; lia).
      assert (Rsum l <= nth m l 0 + INR (length l) * c).
      { apply IH; [simpl in Hm; lia |].
        intros j Hj Hne. apply (H (S j)); simpl; lia. }
      lra.
Qed.

Lemma exp_neg_lt_inv (g : R) : 0 < g -> exp (- g) < / g.
Proof.
  intros Hg. rewrite exp_Ropp.
  apply Rinv_lt_contravar.
  - apply Rmult_lt_0_compat; [assumption | apply exp_pos].
  - pose proof (exp_ineq1_le g). lra.
Qed.

Lemma exp_le (x y : R) : x <= y -> exp x <= exp y.
Proof.
  intros [H | ->]; [apply Rlt_le, exp_increasing, H | lra].
Qed.

(** Scores with a gap [g] below the score of item [m]: every other weight
    is at most [1/g], and the weight of [m] is at least [1 - N/g]. *)
Lemma softmax_sharp (ss : list R) (m : nat) (g : R) :
  0 < g ->
  (m < length ss)%nat ->
  (forall j, (j < length ss)%nat -> j <> m ->
     nth j ss 0 + g <= nth m ss 0) ->
  (forall j, (j < length ss)%nat -> j <> m ->
     0 < nth j (Rsoftmax ss) 0 <= / g)
  /\ 1 - INR (length ss) * / g <= nth m (Rsoftmax ss) 0 <= 1.
Proof.
  intros Hg Hm Hgap.
  assert (Hne : ss <> []) by (destruct ss; [simpl in Hm; lia | discriminate]).
  assert (Hothers : forall j, (j < length ss)%nat -> j <> m ->
            0 < nth j (Rsoftmax ss) 0 <= / g).
  { intros j Hj Hjm. rewrite nth_Rsoftmax by assumption.
    set (S := Rsum (map exp ss)).
    assert (HSm : exp (nth m ss 0) <= S).
    { apply Rsum_ge_member.
      - intros y Hy. apply in_map_iff in Hy. destruct Hy as [s [<- _]].
        apply Rlt_le, exp_pos.
      - apply in_map. now apply nth_In. }
    pose proof (exp_pos (nth m ss 0)) as HEm.
    pose proof (exp_pos (nth j ss 0)) as HEj.
    assert (HSpos : 0 < S) by lra.
    assert (HEjm : exp (nth j ss 0) <= exp (nth m ss 0) * exp (- g)).
    { rewrite <- exp_plus. apply exp_le.
      specialize (Hgap j Hj Hjm). lra. }
    pose proof (exp_neg_lt_inv g Hg) as Hc.
    pose proof (exp_pos (- g)) as Hc0.
    set (w := exp (nth j ss 0) / S).
    assert (Hw : w * S = exp (nth j ss 0)) by (unfold w; field; lra).
    assert (Hwpos : 0 < w) by (unfold w; apply Rdiv_lt_0_compat; lra).
    split; [assumption |].
    assert (w <= exp (- g)); [| lra].
    assert (w * exp (nth m ss 0) <= exp (nth m ss 0) * exp (- g)) by nra.
    nra. }
  split; [exact Hothers |].
  pose proof (Rsum_Rsoftmax ss Hne) as Hsum.
  assert (Hpos : forall y, In y (Rsoftmax ss) -> 0 <= y)
    by (intros y Hy; apply Rlt_le; now apply Rsoftmax_pos in Hy).
  split.
  - pose proof (Rsum_le_one_exempt (/ g) (Rsoftmax ss) m) as H.
    rewrite Hsum, Rsoftmax_length in H.
    assert (0 <= / g) by (apply Rlt_le, Rinv_0_lt_compat, Hg).
    specialize (H ltac:(assumption) Hm).
    assert (1 <= nth m (Rsoftmax ss) 0 + INR (length ss) * / g); [| lra].
    apply H. intros j Hj Hjm. now apply Hothers.
  - rewrite <- Hsum. apply Rsum_ge_member; [assumption |].
    apply nth_In. now rewrite Rsoftmax_length.
Qed.

Section Limits.

(** Finite keys [rs] of dimension [d], a finite query [q], and as many
    values as keys. *)
Variables (d : nat) (rs : list (list R)) (q : list R) (values : list float).
Hypothesis Hq : length q = d.
Hypothesis Hv : length values = length rs.

Lemma flattens_on_finite_inputs :
  flattens_to_uniform (fin_array d rs) (fins q) values.
Proof.
  intros eps Heps.
  set (B := dot_bound rs q).
  assert (HB : 0 <= B) by apply dot_bound_nonneg.
  exists (4 * B / eps + 4 * B + 1).
  assert (HBe : 0 <= 4 * B / eps).
  { apply Rmult_le_pos; [lra | apply Rlt_le, Rinv_0_lt_compat, Heps]. }
  split; [lra |].
  intros t Ht.
  assert (Htpos : 0 < t) by lra.
  exists (Rsoftmax (Rscores rs q t)). split.
  - apply compute_attention_fin_weights; auto. lra.
  - simpl. rewrite length_map. intros i Hi.
    set (x := B / t).
    assert (Hxt : x * t = B) by (unfold x; field; lra).
    assert (Hx0 : 0 <= x)
      by (unfold x; apply Rmult_le_pos; [lra | apply Rlt_le, Rinv_0_lt_compat, Htpos]).
    assert (Het : 4 * B < eps * t).
    { assert (He : 4 * B / eps * eps = 4 * B) by (field; lra). nra. }
    apply Rle_lt_trans with (4 * x).
    + rewrite <- (Rscores_length rs q t).
      apply softmax_near_uniform.
      * split; [assumption | nra].
      * intros s Hs. unfold Rscores in Hs. apply in_map_iff in Hs.
        destruct Hs as [r [<- Hr]].
        pose proof (dot_bound_ge rs q r Hr) as Hb. fold B in Hb.
        assert (Hdt : Rdot r q / t * t = Rdot r q) by (field; lra).
        unfold Rabs in Hb. destruct (Rcase_abs (Rdot r q)); split; nra.
      * now rewrite Rscores_length.
    + nra.
Qed.

Lemma sharpens_on_finite_inputs (m : nat) :
  only_max_score_item rs q m ->
  sharpens_to_one_hot (fin_array d rs) (fins q) values m.
Proof.
  intros [Hm Hmax] eps Heps.
  set (n := INR (length rs)).
  assert (Hn : 1 <= n).
  { unfold n. change 1 with (INR 1). apply le_INR. lia. }
  set (dots := map (fun r => Rdot r q) rs).
  assert (Hdots : forall j, (j < length rs)%nat ->
            nth j dots 0 = Rdot (nth j rs []) q).
  { intros j Hj. unfold dots. now rewrite (nth_map_default _ rs []). }
  destruct (gap_exists dots m (nth m dots 0)) as [delta [Hd Hgap]].
  { intros j Hj Hjm. unfold dots in Hj. rewrite length_map in Hj.
    specialize (Hmax 1 Rlt_0_1 j Hj Hjm).
    rewrite !nth_Rscores in Hmax by assumption.
    rewrite !Hdots by assumption. lra. }
  exists (eps * delta / n).
  assert (Htau : 0 < eps * delta / n).
  { apply Rdiv_lt_0_compat; [apply Rmult_lt_0_compat; assumption | lra]. }
  split; [assumption |].
  intros t [Ht0 Ht].
  exists (Rsoftmax (Rscores rs q t)). split.
  - apply compute_attention_fin_weights; auto. lra.
  - simpl. rewrite length_map.
    assert (Hg : 0 < delta / t) by (apply Rdiv_lt_0_compat; assumption).
    destruct (softmax_sharp (Rscores rs q t) m (delta / t)) as [Ho Hw].
    + assumption.
    + now rewrite Rscores_length.
    + rewrite Rscores_length. intros j Hj Hjm.
      rewrite !nth_Rscores by assumption.
      assert (Hj' : (j < length dots)%nat)
        by (unfold dots; now rewrite length_map).
      specialize (Hgap j Hj' Hjm). rewrite !Hdots in Hgap by assumption.
      unfold Rdiv. rewrite <- Rmult_plus_distr_r.
      apply Rmult_le_compat_r; [apply Rlt_le, Rinv_0_lt_compat, Ht0 | lra].
    + rewrite Rscores_length in Ho, Hw. fold n in Hw.
      assert (Hinv : / (delta / t) = t / delta) by (field; lra).
      rewrite Hinv in Ho, Hw.
      assert (Htd : n * (t / delta) < eps).
      { assert (He : eps * delta / n * n = eps * delta) by (field; lra).
        assert (Hx : t / delta * delta = t) by (field; lra).
        assert (t * n < eps * delta) by nra.
        nra. }
      assert (Htd0 : 0 < t / delta) by (apply Rdiv_lt_0_compat; assumption).
      intros i Hi. unfold one_hot.
      destruct (Nat.eqb_spec i m) as [-> | Him].
      * apply Rabs_def1; lra.
      * specialize (Ho i Hi Him). apply Rabs_def1; nra.
Qed.


End Limits.


Lemma fins_inj (l l' : list R) : fins l = fins l' -> l = l'.
Proof.
  revert l'. induction l as [| x l IH]; intros [| y l'] H;
    simpl in H; try discriminate; [reflexivity |].
  injection H as Hx Hl. f_equal; [assumption | now apply IH].
Qed.

Lemma returns_weights_unique (keys : ndarray2) (query values : list float)
    (t : R) (ws ws' : list R) :
  returns_weights keys query values t ws ->
  returns_weights keys query values t ws' ->
  ws = ws'.
Proof.
  intros [a H] [a' H']. rewrite H in H'. injection H' as Hw _.
  now apply fins_inj.
Qed.

(** With tied scores the weights are equal at every temperature. *)
Lemma tie_weights (t : R) :
  0 < t -> returns_weights tie_keys tie_query tie_values t [1 / 2; 1 / 2].
Proof.
  intros Ht.
  pose proof (compute_attention_fin_weights 1 [[1]; [1]] [1] tie_values t)
    as H.
  replace (Rsoftmax (Rscores [[1]; [1]] [1] t)) with [1 / 2; 1 / 2] in H.
  - apply H; [lra | reflexivity | reflexivity].
  - unfold Rsoftmax, Rscores, Rdot, Rsum. simpl.
    pose proof (exp_pos ((1 * 1 + 0) / t)). real_entries.
Qed.


(** * Multi-head attention *)

Lemma reads_only_mret {A : Type} (names : list string) (a : A) :
  reads_only names (mret a).
Proof. split; reflexivity. Qed.

Lemma reads_only_lift {A : Type} (names : list string) (o : outcome A) :
  reads_only names (lift o).
Proof. split; reflexivity. Qed.

Lemma reads_only_load_global (names : list string) (name : string) :
  In name names -> reads_only names (load_global name).
Proof.
  intros Hin. unfold load_global. split.
  - intros g. now destruct (g name).
  - intros g g' H. rewrite <- (H name Hin). now destruct (g name).
Qed.

Lemma reads_only_mbind {A B : Type} (names : list string) (m : M A)
    (k : A -> M B) :
  reads_only names m ->
  (forall a, reads_only names (k a)) ->
  reads_only names (mbind m k).
Proof.
  intros [Hm1 Hm2] Hk. unfold mbind. split.
  - intros g. specialize (Hm1 g).
    destruct (m g) as [[a | e] g1]; simpl in *; subst g1;
      [apply (Hk a) | reflexivity].
  - intros g g' H.
    pose proof (Hm1 g) as H1. pose proof (Hm1 g') as H1'.
    pose proof (Hm2 g g' H) as H2.
    destruct (m g) as [[a | e] g1]; destruct (m g') as [[a' | e'] g1'];
      simpl in *; subst g1 g1'; try discriminate.
    + injection H2 as <-. now apply (Hk a).
    + injection H2 as <-. reflexivity.
Qed.

Lemma reads_only_for_each {A B : Type} (names : list string) (l : list A)
    (body : A -> M B) :
  (forall a, reads_only names (body a)) ->
  reads_only names (for_each l body).
Proof.
  intros Hbody. induction l as [| a l IH]; simpl.
  - apply reads_only_mret.
  - apply reads_only_mbind; [apply Hbody |]. intros b.
    apply reads_only_mbind; [apply IH |]. intros bs.
    apply reads_only_mret.
Qed.

Create HintDb reads discriminated.
#[local] Hint Resolve reads_only_mret reads_only_lift reads_only_load_global
  reads_only_mbind reads_only_for_each in_eq in_cons : reads.

Lemma multi_head_attention_reads_only (keys : ndarray2)
    (query values : list float) (n_heads : Z) (temperature : float) :
  reads_only ["books"; "attention_per_head"]
    (multi_head_attention keys query values n_heads temperature).
Proof.
  unfold multi_head_attention.
  apply reads_only_mbind; [| auto with reads].
  apply reads_only_for_each. intros head_idx.
  apply reads_only_mbind; [auto with reads |]. intros bks.
  apply reads_only_mbind; [auto with reads |]. intros names.
  apply reads_only_for_each. intros [i name].
  auto 12 with reads.
Qed.

(** In the namespace of the notebook every call ends in [NameError]. *)
Lemma multi_head_attention_NameError (keys : ndarray2)
    (query values : list float) (n_heads : Z) (temperature : float) :
  fst (multi_head_attention keys query values n_heads temperature
         notebook_namespace)
  = Raise NameError.
Proof.
  unfold multi_head_attention, range.
  destruct (Z.to_nat n_heads) as [| n]; reflexivity.
Qed.

(** With [attention_per_head] bound, the result is computed from [books]:
    one book of rating [r], one head of weight 1. *)
Lemma one_book_result (keys : ndarray2) (query values : list float)
    (temperature : float) (r : R) :
  fst (multi_head_attention keys query values 1 temperature
         (one_book_namespace r))
  = Ok (PyList [[Fin 1]], Array1 [Fin ((0 + r * 1) / 1)], projection_matrices).
Proof.
  unfold multi_head_attention, range.
  change (Z.to_nat 1) with 1%nat.
  unfold one_book_namespace, namespace_with, mbind, load_global, lift, mret.
  cbn -[fdiv projection_matrices INR].
  change (INR 1) with 1. rewrite fdiv_fin by lra. reflexivity.
Qed.

(** C3.  The function of the notebook, called in the namespace of the
    notebook, ends in [NameError] for all arguments: the loop over the
    heads that its comments describe (project the query and the keys, call
    [compute_attention], collect the weights) is not written, and
    [attention_per_head] is never bound.  No projected vector, no weights
    and no final ratings are produced. *)
Theorem multi_head_attention_unimplemented (keys : ndarray2)
    (query values : list float) (n_heads : Z) (temperature : float) :
  multi_head_attention keys query values n_heads temperature
    notebook_namespace
  = (Raise NameError, notebook_namespace).
Proof.
  pose proof (multi_head_attention_NameError keys query values n_heads
                temperature) as H.
  pose proof (proj1 (multi_head_attention_reads_only keys query values
                       n_heads temperature) notebook_namespace) as Hg.
  destruct (multi_head_attention keys query values n_heads temperature
              notebook_namespace) as [o g].
  simpl in *. now subst.
Qed.

(** C7.  With three heads and the two configured projections, the call on
    the arrays of the notebook ends in [NameError], as with any number of
    heads: the projections are never looked up, and the failure is not
    that of a missing key. *)
Theorem three_heads_NameError :
  fst (multi_head_attention KQV_keys KQV_query KQV_values 3 (Fin 1)
         notebook_namespace)
  = Raise NameError
  /\ fst (multi_head_attention KQV_keys KQV_query KQV_values 3 (Fin 1)
            notebook_namespace)
     <> Raise KeyError
  /\ fst (multi_head_attention KQV_keys KQV_query KQV_values 2 (Fin 1)
            notebook_namespace)
     = Raise NameError.
Proof.
  rewrite !multi_head_attention_NameError.
  repeat split. discriminate.
Qed.



(** * Further properties of the single-head scorer *)

Local Open Scope list_scope.

Lemma Rsum_map_exp_pos (ss : list R) : ss <> [] -> 0 < Rsum (map exp ss).
Proof.
  destruct ss as [| x ss]; [contradiction |]. intros _.
  apply (Rsum_exp_pos (x :: ss) x). now left.
Qed.



(** On finite keys and query the result is a function of the scores. *)
Lemma compute_attention_via_scores (d : nat) (rs : list (list R))
    (q : list R) (values : list float) (t : R) :
  t <> 0 ->
  length q = d ->
  compute_attention (fin_array d rs) (fins q) values (Fin t) =
  (let weights := fins (Rsoftmax (Rscores rs q t)) in
   let! products := np_multiply values weights in
   Ok (weights, np_sum products)).
Proof.
  intros Ht Hq. unfold compute_attention.
  rewrite attention_scores_fin by assumption.
  cbv beta iota zeta delta [obind]. now rewrite softmax_fins.
Qed.

Lemma Rsum_repeat (x : R) (n : nat) : Rsum (repeat x n) = INR n * x.
Proof.
  induction n as [| n IH]; [simpl; lra |].
  rewrite S_INR. simpl. rewrite IH. lra.
Qed.

Lemma map_const_repeat {A B : Type} (b : B) (f : A -> B) (l : list A) :
  (forall a, In a l -> f a = b) -> map f l = repeat b (length l).
Proof.
  induction l as [| a l IH]; intros H; simpl; [reflexivity |].
  rewrite (H a) by now left. f_equal. apply IH. intros; apply H; now right.
Qed.

Lemma Rdot_repeat (u : R) (vs : list R) :
  Rdot vs (repeat u (length vs)) = Rsum vs * u.
Proof.
  unfold Rdot. induction vs as [| v vs IH]; simpl; [lra |].
  rewrite IH. lra.
Qed.


Lemma Rdot_zero_query (r q : list R) :
  Forall (fun x => x = 0) q -> Rdot r q = 0.
Proof.
  unfold Rdot. intros H. revert r.
  induction H as [| x q Hx _ IH]; intros [| y r]; simpl; try lra.
  subst x. rewrite IH. lra.
Qed.


Lemma Rdot_scale (c : R) (r q : list R) :
  Rdot r (map (Rmult c) q) = c * Rdot r q.
Proof.
  unfold Rdot. revert q.
  induction r as [| x r IH]; intros [| y q]; simpl; try lra.
  rewrite IH. lra.
Qed.



Lemma Rzip_mul_app (r q : list R) (k th : R) :
  length r = length q ->
  Rzip_mul (r ++ [k]) (q ++ [th]) = Rzip_mul r q ++ [k * th].
Proof.
  revert q. induction r as [| x r IH]; intros [| y q] H;
    simpl in *; try discriminate; [reflexivity |].
  f_equal. apply IH. congruence.
Qed.

Lemma Rsum_app (l l' : list R) : Rsum (l ++ l') = Rsum l + Rsum l'.
Proof.
  induction l as [| x l IH]; simpl; [lra |]. rewrite IH. lra.
Qed.

Lemma Rsoftmax_shift (c : R) (ss : list R) :
  Rsoftmax (map (fun x => x + c) ss) = Rsoftmax ss.
Proof.
  unfold Rsoftmax. rewrite !map_map.
  assert (HS : Rsum (map (fun x => exp (x + c)) ss)
               = exp c * Rsum (map exp ss)).
  { induction ss as [| x ss IH]; simpl; [lra |].
    rewrite IH, exp_plus. lra. }
  rewrite HS. apply map_ext_in. intros x Hx.
  pose proof (Rsum_exp_pos ss x Hx). pose proof (exp_pos c).
  rewrite exp_plus. field. lra.
Qed.



Lemma Rsum_Permutation (l l' : list R) :
  Permutation l l' -> Rsum l = Rsum l'.
Proof.
  induction 1; simpl; lra.
Qed.

Lemma Rzip_mul_map {A : Type} (f g : A -> R) (l : list A) :
  Rzip_mul (map f l) (map g l) = map (fun a => f a * g a) l.
Proof.
  induction l as [| a l IH]; simpl; [reflexivity | now rewrite IH].
Qed.

Lemma combine_map_r {A B : Type} (g : A -> B) (l : list A) :
  combine l (map g l) = map (fun a => (a, g a)) l.
Proof.
  induction l as [| a l IH]; simpl; [reflexivity | now rewrite IH].
Qed.



Lemma np_sum_scaled_l (v : R) (ws : list R) :
  np_sum (map (fun b => fmul (Fin v) b) (fins ws)) = Fin (v * Rsum ws).
Proof.
  replace (map (fun b => fmul (Fin v) b) (fins ws))
    with (fins (map (Rmult v) ws))
    by (unfold fins; rewrite !map_map; reflexivity).
  rewrite np_sum_fins. f_equal.
  induction ws as [| w ws IH]; simpl; [lra |]. rewrite IH. lra.
Qed.



Lemma np_sum_scaled_r (w : R) (vs : list R) :
  np_sum (map (fun a => fmul a (Fin w)) (fins vs)) = Fin (Rsum vs * w).
Proof.
  replace (map (fun a => fmul a (Fin w)) (fins vs))
    with (fins (map (fun a => a * w) vs))
    by (unfold fins; rewrite !map_map; reflexivity).
  rewrite np_sum_fins. f_equal.
  induction vs as [| a vs IH]; simpl; [lra |]. rewrite IH. lra.
Qed.



(** * Special values *)

Lemma fmul_NaN_r (x : float) : fmul x NaN = NaN.
Proof. destruct x; reflexivity. Qed.

Lemma fdiv_NaN_r (x : float) : fdiv x NaN = NaN.
Proof. destruct x; reflexivity. Qed.

Lemma fold_left_fadd_NaN (l : list float) : fold_left fadd l NaN = NaN.
Proof. induction l as [| x l IH]; simpl; [reflexivity | assumption]. Qed.

Lemma fold_left_fadd_In_NaN (l : list float) (acc : float) :
  In NaN l -> fold_left fadd l acc = NaN.
Proof.
  revert acc. induction l as [| x l IH]; intros acc; simpl; [contradiction |].
  intros [-> | Hin].
  - replace (fadd acc NaN) with NaN by (destruct acc; reflexivity).
    apply fold_left_fadd_NaN.
  - now apply IH.
Qed.

Lemma zip_mul_In_NaN (u w : list float) :
  length u = length w -> In NaN w -> In NaN (zip_mul u w).
Proof.
  revert w. induction u as [| x u IH]; intros [| y w] Hlen Hin;
    simpl in *; try contradiction; try discriminate.
  destruct Hin as [-> | Hin].
  - left. apply fmul_NaN_r.
  - right. apply IH; [congruence | assumption].
Qed.

Lemma fold_left_fadd_PInf (l : list float) (acc : float) :
  Forall (fun e => e = PInf \/ e = Fin 0) l ->
  acc = PInf \/ ((exists a, acc = Fin a) /\ In PInf l) ->
  fold_left fadd l acc = PInf.
Proof.
  intros Hl. revert acc.
  induction Hl as [| e l He _ IH]; intros acc Hacc; simpl.
  - destruct Hacc as [-> | [_ []]]. reflexivity.
  - apply IH.
    destruct Hacc as [-> | [[a ->] [Hp | Hin]]].
    + left. destruct He as [-> | ->]; reflexivity.
    + left. subst e. reflexivity.
    + destruct He as [-> | ->]; [left; reflexivity |].
      right. split; [eexists; reflexivity | assumption].
Qed.

Lemma np_sum_zeros (l : list float) :
  Forall (fun e => e = Fin 0) l -> np_sum l = Fin 0.
Proof.
  unfold np_sum. induction 1 as [| e l -> _ IH]; simpl; [reflexivity |].
  now rewrite Rplus_0_r.
Qed.

(** The exponentials at temperature zero: [+inf], [0] or [nan]. *)
Lemma zero_temperature_cases (es : list float) :
  Forall (fun e => e = PInf \/ e = Fin 0 \/ e = NaN) es ->
  In NaN es
  \/ (Forall (fun e => e = PInf \/ e = Fin 0) es /\ In PInf es)
  \/ Forall (fun e => e = Fin 0) es.
Proof.
  induction 1 as [| e es He _ IH]; [right; right; constructor |].
  destruct He as [-> | [-> | ->]].
  - destruct IH as [Hn | [[Hf Hp] | Hz]].
    + left. now right.
    + right. left. split; [constructor; auto | now left].
    + right. left. split; [| now left].
      constructor; [now left |].
      eapply Forall_impl; [| exact Hz]. intros a ->. now right.
  - destruct IH as [Hn | [[Hf Hp] | Hz]].
    + left. now right.
    + right. left. split; [constructor; auto | now right].
    + right. right. now constructor.
  - left. now left.
Qed.

(** X8.  At temperature zero nothing is raised: the division by zero makes the
    scores infinite or [nan], every weight is [nan] or [0], at least one is
    [nan], and the aggregate is [nan]. *)
Theorem zero_temperature_gives_nan (d : nat) (rs : list (list R))
    (q vs : list R) :
  length q = d ->
  length vs = length rs ->
  rs <> [] ->
  exists ws,
    compute_attention (fin_array d rs) (fins q) (fins vs) (Fin 0)
    = Ok (ws, NaN)
    /\ length ws = length rs
    /\ In NaN ws
    /\ Forall (fun w => w = NaN \/ w = Fin 0) ws.
Proof.
  intros Hq Hv Hne.
  rewrite compute_attention_ok
    by (simpl; now rewrite ?fins_length, ?length_map).
  cbv zeta. simpl rows. rewrite map_map.
  set (es := map fexp (map (fun r => fdiv (inner (fins r) (fins q)) (Fin 0)) rs)).
  assert (HE : Forall (fun e => e = PInf \/ e = Fin 0 \/ e = NaN) es).
  { unfold es. rewrite map_map. apply Forall_forall. intros e He.
    apply in_map_iff in He. destruct He as [r [<- _]].
    rewrite inner_fins. unfold fdiv. rewrite Rsign_zero.
    destruct (Rsign (Rdot r q)); simpl; auto. }
  assert (Hlen : length es = length rs)
    by (unfold es; now rewrite !length_map).
  assert (Hes : es <> []).
  { intros H. rewrite H in Hlen. destruct rs; [contradiction | discriminate]. }
  unfold softmax. fold es.
  set (ws := map (fun e => fdiv e (np_sum es)) es).
  assert (Hws : In NaN ws /\ Forall (fun w => w = NaN \/ w = Fin 0) ws).
  { unfold ws.
    destruct (zero_temperature_cases es HE) as [Hn | [[Hf Hp] | Hz]].
    - assert (HS : np_sum es = NaN) by now apply fold_left_fadd_In_NaN.
      rewrite HS. split.
      + apply in_map_iff. exists NaN. split; [reflexivity | assumption].
      + apply Forall_forall. intros w Hw. apply in_map_iff in Hw.
        destruct Hw as [e [<- _]]. left. apply fdiv_NaN_r.
    - assert (HS : np_sum es = PInf).
      { apply fold_left_fadd_PInf; [assumption |].
        right. split; [eexists; reflexivity | assumption]. }
      rewrite HS. split.
      + apply in_map_iff. exists PInf. split; [reflexivity | assumption].
      + apply Forall_forall. intros w Hw. apply in_map_iff in Hw.
        destruct Hw as [e [<- He]]. rewrite Forall_forall in Hf.
        destruct (Hf e He) as [-> | ->]; [now left | now right].
    - rewrite (np_sum_zeros es Hz).
      assert (H0 : fdiv (Fin 0) (Fin 0) = NaN)
        by (unfold fdiv; now rewrite !Rsign_zero).
      split.
      + destruct es as [| e es']; [contradiction |].
        inversion Hz; subst. left. exact H0.
      + apply Forall_forall. intros w Hw. apply in_map_iff in Hw.
        destruct Hw as [e [<- He]]. rewrite Forall_forall in Hz.
        rewrite (Hz e He). now left. }
  destruct Hws as [Hin Hall].
  exists ws. repeat split; try assumption.
  - f_equal. f_equal. apply fold_left_fadd_In_NaN.
    apply zip_mul_In_NaN; [| assumption].
    unfold ws. now rewrite fins_length, length_map, Hlen.
  - unfold ws. now rewrite length_map.
Qed.

Lemma zero_temperature_gives_nan_witness :
  exists ws,
    compute_attention (fin_array 2 [[1; 0]; [0; 1]]) (fins [1; 0])
      (fins [10; 20]) (Fin 0)
    = Ok (ws, NaN)
    /\ length ws = length [[1; 0]; [0; 1]]
    /\ In NaN ws
    /\ Forall (fun w => w = NaN \/ w = Fin 0) ws.
Proof.
  apply (zero_temperature_gives_nan 2 [[1; 0]; [0; 1]] [1; 0] [10; 20]).
  - reflexivity.
  - reflexivity.
  - discriminate.
Defined.

Lemma zip_mul_repeat_NaN (u : list float) :
  zip_mul u (repeat NaN (length u)) = repeat NaN (length u).
Proof.
  induction u as [| x u IH]; simpl; [reflexivity |].
  now rewrite fmul_NaN_r, IH.
Qed.

(** X9.  A [nan] is never masked: with a [nan] in the query or as the
    temperature, and at least one item, every weight and the aggregate are
    [nan], and nothing is raised. *)
Theorem nan_reaches_every_weight (keys : ndarray2)
    (query values : list float) (temperature : float) :
  wf_ndarray2 keys ->
  ncols keys = length query ->
  length values = length (rows keys) ->
  rows keys <> [] ->
  In NaN query \/ temperature = NaN ->
  compute_attention keys query values temperature =
  Ok (repeat NaN (length (rows keys)), NaN).
Proof.
  intros Hwf Hq Hv Hne Hnan.
  rewrite compute_attention_ok by assumption. cbv zeta.
  assert (Hs : map (fun r => fdiv (inner r query) temperature) (rows keys)
               = repeat NaN (length (rows keys))).
  { apply map_const_repeat. intros r Hr.
    destruct Hnan as [Hin | ->]; [| apply fdiv_NaN_r].
    unfold inner, np_sum. rewrite fold_left_fadd_In_NaN; [reflexivity |].
    apply zip_mul_In_NaN; [| assumption].
    unfold wf_ndarray2 in Hwf. rewrite Forall_forall in Hwf.
    rewrite (Hwf r Hr). assumption. }
  rewrite Hs.
  assert (Hw : softmax (repeat NaN (length (rows keys)))
               = repeat NaN (length (rows keys))).
  { unfold softmax. rewrite map_map.
    rewrite (map_const_repeat NaN).
    - now rewrite repeat_length.
    - intros a Ha. apply repeat_spec in Ha. now subst a. }
  rewrite Hw. f_equal. f_equal.
  rewrite <- Hv, zip_mul_repeat_NaN.
  apply fold_left_fadd_In_NaN.
  rewrite Hv. destruct (rows keys); [contradiction | now left].
Qed.

Lemma nan_reaches_every_weight_witness :
  compute_attention scenario_keys [NaN; Fin 0] scenario_values (Fin 1) =
  Ok (repeat NaN (length (rows scenario_keys)), NaN).
Proof.
  apply (nan_reaches_every_weight scenario_keys [NaN; Fin 0] scenario_values
           (Fin 1)).
  - repeat constructor.
  - reflexivity.
  - reflexivity.
  - discriminate.
  - left. now left.
Defined.

(** * The written half of multi-head attention *)

Lemma for_each_ok {A B : Type} (l : list A) (body : A -> M B) (f : A -> B)
    (g : namespace) :
  (forall a, In a l -> body a g = (Ok (f a), g)) ->
  for_each l body g = (Ok (map f l), g).
Proof.
  induction l as [| a l IH]; intros H; simpl; [reflexivity |].
  unfold mbind. rewrite (H a) by now left.
  rewrite IH by (intros; apply H; now right). reflexivity.
Qed.

Lemma for_each_raise {A B : Type} (l : list A) (body : A -> M B) (e : exn)
    (g : namespace) :
  (forall a, In a l ->
     (exists b, body a g = (Ok b, g)) \/ body a g = (Raise e, g)) ->
  (exists a, In a l /\ body a g = (Raise e, g)) ->
  for_each l body g = (Raise e, g).
Proof.
  induction l as [| a l IH]; intros Hall [x [Hin Hx]]; [contradiction |].
  simpl. unfold mbind.
  destruct (Hall a (or_introl eq_refl)) as [[b Hb] | Hr].
  - rewrite Hb. rewrite IH; [reflexivity | |].
    + intros a' Ha'. apply Hall. now right.
    + destruct Hin as [<- | Hin].
      * rewrite Hx in Hb. discriminate.
      * exists x. now split.
  - now rewrite Hr.
Qed.

Lemma dict_get_head (k : string) (b : book) (d : list (string * book)) :
  dict_get ((k, b) :: d) k = Ok b.
Proof. simpl. now rewrite String.eqb_refl. Qed.

Lemma mbind_ok {A B : Type} (m : M A) (k : A -> M B) (g g' : namespace)
    (a : A) :
  m g = (Ok a, g') -> mbind m k g = k a g'.
Proof. intros H. unfold mbind. now rewrite H. Qed.

Lemma mbind_raise {A B : Type} (m : M A) (k : A -> M B) (g g' : namespace)
    (e : exn) :
  m g = (Raise e, g') -> mbind m k g = (Raise e, g').
Proof. intros H. unfold mbind. now rewrite H. Qed.

Lemma load_global_bound (name : string) (g : namespace) (o : pyobj) :
  g name = Some o -> load_global name g = (Ok o, g).
Proof. intros H. unfold load_global. now rewrite H. Qed.

Lemma load_global_unbound (name : string) (g : namespace) :
  g name = None -> load_global name g = (Raise NameError, g).
Proof. intros H. unfold load_global. now rewrite H. Qed.

Lemma lift_run {A : Type} (o : outcome A) (g : namespace) : lift o g = (o, g).
Proof. reflexivity. Qed.

Ltac bind_ok H := rewrite (mbind_ok _ _ _ _ _ H); cbv beta.
Ltac bind_raise H := rewrite (mbind_raise _ _ _ _ _ H).
Ltac load_ok H := bind_ok (load_global_bound _ _ _ H).

Lemma multi_head_attention_without_heads (keys : ndarray2)
    (query values : list float) (n_heads : Z) (temperature : float)
    (g : namespace) :
  g "attention_per_head" = None ->
  multi_head_attention keys query values n_heads temperature g
  = (Raise (error_without_heads g n_heads), g).
Proof.
  intros Hnone. unfold multi_head_attention, error_without_heads, range.
  pose proof (load_global_unbound _ _ Hnone) as Hload.
  cbv zeta.
  destruct (Z.ltb_spec 0 n_heads) as [Hpos | Hnpos].
  - destruct (Z.to_nat n_heads) as [| n] eqn:Hn; [lia |].
    destruct (g "books") as [[d | l] |] eqn:Hb.
    + destruct d as [| [k b] d].
      * (* no book: the comprehension is empty for every head *)
        match goal with
        | |- mbind (for_each ?l ?body) _ _ = _ =>
            assert (Hloop : for_each l body g
                            = (Ok (map (fun _ => []) l), g))
        end.
        { apply for_each_ok. intros h _. load_ok Hb. reflexivity. }
        bind_ok Hloop. now bind_raise Hload.
      * apply mbind_raise. simpl seq. simpl for_each.
        apply mbind_raise. load_ok Hb.
        rewrite (mbind_ok _ _ g g (map fst ((k, b) :: d))) by reflexivity.
        cbv beta. cbn [map fst enumerate enumerate_from for_each].
        apply mbind_raise. load_ok Hb.
        rewrite (mbind_ok _ _ g g b)
          by (rewrite lift_run; cbn [py_getitem_str]; now rewrite dict_get_head).
        cbv beta.
        now bind_raise Hload.
    + apply mbind_raise. simpl seq. simpl for_each.
      apply mbind_raise. load_ok Hb. reflexivity.
    + apply mbind_raise. simpl seq. simpl for_each.
      apply mbind_raise. apply mbind_raise.
      now apply load_global_unbound.
  - replace (Z.to_nat n_heads) with 0%nat by lia.
    simpl seq. simpl for_each.
    unfold mbind at 1. unfold mret at 1.
    bind_raise Hload.
    destruct (g "books") as [[d | l] |]; reflexivity.
Qed.



(** X11.  With no head to run, the mean over the heads is the mean of nothing:
    the call returns [nan] for the final ratings, without looking at
    [books]. *)
Theorem no_heads_mean_is_nan (keys : ndarray2) (query values : list float)
    (n_heads : Z) (temperature : float) (g : namespace) (o : pyobj) :
  (n_heads <= 0)%Z ->
  g "attention_per_head" = Some o ->
  multi_head_attention keys query values n_heads temperature g
  = (Ok (o, Scalar NaN, projection_matrices), g).
Proof.
  intros Hn Ho. unfold multi_head_attention, range. cbv zeta.
  replace (Z.to_nat n_heads) with 0%nat by lia.
  simpl seq. simpl for_each.
  unfold mbind at 1. unfold mret at 1.
  load_ok Ho. reflexivity.
Qed.

Lemma no_heads_mean_is_nan_witness :
  multi_head_attention KQV_keys KQV_query KQV_values 0 (Fin 1)
    (one_book_namespace 2)
  = (Ok (PyList [[Fin 1]], Scalar NaN, projection_matrices),
     one_book_namespace 2).
Proof.
  apply (no_heads_mean_is_nan KQV_keys KQV_query KQV_values 0 (Fin 1)
           (one_book_namespace 2) (PyList [[Fin 1]])).
  - lia.
  - reflexivity.
Defined.

Lemma enumerate_from_seq {A : Type} (l : list A) (d : A) (k : nat) :
  enumerate_from k l = map (fun i => ((k + i)%nat, nth i l d)) (seq 0 (length l)).
Proof.
  revert k. induction l as [| a l IH]; intros k; [reflexivity |].
  simpl. rewrite Nat.add_0_r. f_equal.
  rewrite IH, <- seq_shift, map_map. apply map_ext. intros i.
  f_equal. lia.
Qed.

Lemma enumerate_seq {A : Type} (l : list A) (d : A) :
  enumerate l = map (fun i => (i, nth i l d)) (seq 0 (length l)).
Proof. apply enumerate_from_seq. Qed.

Lemma for_each_map {A B C : Type} (f : A -> B) (l : list A) (body : B -> M C) :
  for_each (map f l) body = for_each l (fun a => body (f a)).
Proof.
  induction l as [| a l IH]; simpl; [reflexivity | now rewrite IH].
Qed.

Lemma dict_get_nth (d : list (string * book)) (i : nat) :
  NoDup (map fst d) ->
  (i < length d)%nat ->
  dict_get d (nth i (map fst d) "") = Ok (nth i (map snd d) (mk_book [] NaN)).
Proof.
  revert i. induction d as [| [k b] d IH]; intros i Hnd Hi;
    [simpl in Hi; lia |].
  simpl in Hnd. inversion Hnd as [| ? ? Hk Hnd']; subst.
  destruct i as [| i]; [apply dict_get_head |].
  simpl. simpl in Hi.
  assert (Hne : String.eqb k (nth i (map fst d) "") = false).
  { apply String.eqb_neq. intros ->. apply Hk. apply nth_In.
    rewrite length_map. lia. }
  rewrite Hne. apply IH; [assumption | lia].
Qed.

Lemma nth_head_ratings (d : list (string * book)) (heads : list (list float))
    (h i : nat) :
  (i < length d)%nat ->
  nth i (head_ratings d heads h) NaN =
  fmul (rating (nth i (map snd d) (mk_book [] NaN)))
       (nth i (nth h heads []) NaN).
Proof.
  intros Hi. unfold head_ratings.
  rewrite (nth_indep _ NaN
             (fmul (rating (nth 0 (map snd d) (mk_book [] NaN)))
                   (nth 0 (nth h heads []) NaN)))
    by now rewrite length_map, length_seq.
  rewrite (map_nth (fun i => fmul (rating (nth i (map snd d) _)) _)).
  now rewrite seq_nth.
Qed.

Lemma np_mean_axis0_cons (r : list float) (m : list (list float)) :
  np_mean_axis0 (r :: m) =
  Array1 (map (fun i => fdiv (np_sum (column i (r :: m)))
                             (Fin (INR (length (r :: m)))))
              (seq 0 (length r))).
Proof. reflexivity. Qed.

Lemma np_mean_axis0_head_ratings (d : list (string * book))
    (heads : list (list float)) (n : nat) :
  (0 < n)%nat ->
  np_mean_axis0 (map (head_ratings d heads) (seq 0 n))
  = Array1 (mean_ratings d heads n).
Proof.
  intros Hn. destruct n as [| n]; [lia |].
  set (m := map (head_ratings d heads) (seq 0 (S n))).
  assert (Hm : m = head_ratings d heads 0
                   :: map (head_ratings d heads) (seq 1 n)) by reflexivity.
  rewrite Hm, np_mean_axis0_cons, <- Hm.
  assert (Hlen : length m = S n) by (unfold m; now rewrite length_map, length_seq).
  rewrite Hlen. unfold mean_ratings. f_equal.
  assert (Hl0 : length (head_ratings d heads 0) = length d)
    by (unfold head_ratings; now rewrite length_map, length_seq).
  rewrite Hl0.
  apply map_ext_in. intros i Hi. apply in_seq in Hi. f_equal.
  unfold column, m. rewrite map_map. rewrite <- np_sum_seq. f_equal.
  apply map_ext. intros h. apply nth_head_ratings. lia.
Qed.

Section BoundHeads.

(** A namespace that binds [books] to a dict [d] (its keys are distinct,
    as in every dict) and [attention_per_head] to a list [heads] of
    arrays. *)
Variables (keys : ndarray2) (query values : list float) (temperature : float).
Variables (g : namespace) (d : list (string * book)).
Variable heads : list (list float).
Hypothesis Hb : g "books" = Some (PyDict d).
Hypothesis Hnd : NoDup (map fst d).
Hypothesis Ha : g "attention_per_head" = Some (PyList heads).

(** The element of the comprehension, for head [h], at book [i]. *)
Let element (h i : nat) : M float :=
  (books <- load_global "books" ;;
   entry <- lift (py_getitem_str books (nth i (map fst d) "")) ;;
   attention_per_head <- load_global "attention_per_head" ;;
   head <- lift (py_getitem_int attention_per_head h) ;;
   weight <- lift (array_getitem head i) ;;
   mret (fmul (rating entry) weight))%py.

Lemma element_prefix (h i : nat) (k : list float -> M float) :
  (i < length d)%nat ->
  (books <- load_global "books" ;;
   entry <- lift (py_getitem_str books (nth i (map fst d) "")) ;;
   attention_per_head <- load_global "attention_per_head" ;;
   head <- lift (py_getitem_int attention_per_head h) ;;
   k head)%py g
  = (head <- lift (py_getitem_int (PyList heads) h) ;; k head)%py g.
Proof.
  intros Hi. load_ok Hb.
  rewrite (mbind_ok _ _ g g (nth i (map snd d) (mk_book [] NaN)))
    by (rewrite lift_run; cbn [py_getitem_str]; now rewrite dict_get_nth).
  cbv beta. load_ok Ha. reflexivity.
Qed.

Lemma element_ok (h i : nat) :
  (i < length d)%nat ->
  (h < length heads)%nat ->
  (i < length (nth h heads []))%nat ->
  element h i g
  = (Ok (fmul (rating (nth i (map snd d) (mk_book [] NaN)))
              (nth i (nth h heads []) NaN)), g).
Proof.
  intros Hi Hh Hrow. unfold element.
  assert (Hpre := element_prefix h i
    (fun head => weight <- lift (array_getitem head i) ;;
                 mret (fmul (rating (nth i (map snd d) (mk_book [] NaN)))
                            weight))%py Hi).
  load_ok Hb.
  rewrite (mbind_ok _ _ g g (nth i (map snd d) (mk_book [] NaN)))
    by (rewrite lift_run; cbn [py_getitem_str]; now rewrite dict_get_nth).
  cbv beta. load_ok Ha.
  rewrite (mbind_ok _ _ g g (nth h heads []))
    by (rewrite lift_run; cbn [py_getitem_int];
        now rewrite (nth_error_nth' heads [] Hh)).
  cbv beta.
  rewrite (mbind_ok _ _ g g (nth i (nth h heads []) NaN))
    by (rewrite lift_run; unfold array_getitem;
        now rewrite (nth_error_nth' _ NaN Hrow)).
  reflexivity.
Qed.

Lemma element_raise (h i : nat) :
  (i < length d)%nat ->
  (length heads <= h)%nat
  \/ ((h < length heads)%nat /\ (length (nth h heads []) <= i)%nat) ->
  element h i g = (Raise IndexError, g).
Proof.
  intros Hi Hshort. unfold element.
  load_ok Hb.
  rewrite (mbind_ok _ _ g g (nth i (map snd d) (mk_book [] NaN)))
    by (rewrite lift_run; cbn [py_getitem_str]; now rewrite dict_get_nth).
  cbv beta. load_ok Ha.
  destruct Hshort as [Hh | [Hh Hrow]].
  - apply mbind_raise. rewrite lift_run. cbn [py_getitem_int].
    apply nth_error_None in Hh. now rewrite Hh.
  - rewrite (mbind_ok _ _ g g (nth h heads []))
      by (rewrite lift_run; cbn [py_getitem_int];
          now rewrite (nth_error_nth' heads [] Hh)).
    cbv beta. apply mbind_raise. rewrite lift_run. unfold array_getitem.
    apply nth_error_None in Hrow. now rewrite Hrow.
Qed.

(** The body of the loop over the heads. *)
Let head_body (h : nat) : M (list float) :=
  (books <- load_global "books" ;;
   names <- lift (py_keys books) ;;
   for_each (enumerate names) (fun '(i, book) =>
     books <- load_global "books" ;;
     entry <- lift (py_getitem_str books book) ;;
     attention_per_head <- load_global "attention_per_head" ;;
     head <- lift (py_getitem_int attention_per_head h) ;;
     weight <- lift (array_getitem head i) ;;
     mret (fmul (rating entry) weight)))%py.

Lemma head_body_elements (h : nat) :
  head_body h g = for_each (seq 0 (length d)) (element h) g.
Proof.
  unfold head_body. load_ok Hb.
  rewrite (mbind_ok _ _ g g (map fst d)) by reflexivity. cbv beta.
  rewrite (enumerate_seq (map fst d) ""), length_map, for_each_map.
  reflexivity.
Qed.

Lemma head_body_ok (h : nat) :
  (d <> [] -> ~ short_head d heads h) ->
  head_body h g = (Ok (head_ratings d heads h), g).
Proof.
  intros Hns. unfold short_head in Hns.
  rewrite head_body_elements. unfold head_ratings.
  apply for_each_ok. intros i Hi. apply in_seq in Hi.
  assert (Hne : d <> []) by (intros E; rewrite E in Hi; simpl in Hi; lia).
  specialize (Hns Hne).
  apply element_ok; lia.
Qed.

Lemma head_body_raise (h : nat) :
  d <> [] ->
  short_head d heads h ->
  head_body h g = (Raise IndexError, g).
Proof.
  intros Hne Hs. rewrite head_body_elements.
  assert (HN : (0 < length d)%nat)
    by (destruct d; [contradiction | simpl; lia]).
  destruct (le_lt_dec (length heads) h) as [Hh | Hh].
  - apply for_each_raise.
    + intros i Hi. apply in_seq in Hi. right.
      apply element_raise; [lia | now left].
    + exists 0%nat. split; [apply in_seq; lia |].
      apply element_raise; [lia | now left].
  - assert (Hrow : (length (nth h heads []) < length d)%nat)
      by (destruct Hs; lia).
    apply for_each_raise.
    + intros i Hi. apply in_seq in Hi.
      destruct (le_lt_dec (length (nth h heads [])) i) as [Hle | Hlt].
      * right. apply element_raise; [lia | right; lia].
      * left. eexists. apply element_ok; lia.
    + exists (length (nth h heads [])). split; [apply in_seq; lia |].
      apply element_raise; [lia | right; lia].
Qed.

Lemma multi_head_attention_loop (n_heads : Z) :
  multi_head_attention keys query values n_heads temperature g
  = (book_ratings_per_head <- for_each (range n_heads) head_body ;;
     attention_per_head <- load_global "attention_per_head" ;;
     mret (attention_per_head, np_mean_axis0 book_ratings_per_head,
           projection_matrices))%py g.
Proof. reflexivity. Qed.

Lemma multi_head_attention_mean (n_heads : Z) :
  (0 < n_heads)%Z ->
  (d <> [] ->
   forall h, (h < Z.to_nat n_heads)%nat -> ~ short_head d heads h) ->
  multi_head_attention keys query values n_heads temperature g
  = (Ok (PyList heads, Array1 (mean_ratings d heads (Z.to_nat n_heads)),
         projection_matrices), g).
Proof.
  intros Hn Hheads. rewrite multi_head_attention_loop. unfold range.
  rewrite (mbind_ok _ _ g g
             (map (head_ratings d heads) (seq 0 (Z.to_nat n_heads)))).
  - load_ok Ha. unfold mret.
    rewrite np_mean_axis0_head_ratings by lia. reflexivity.
  - apply for_each_ok. intros h Hh. apply in_seq in Hh.
    apply head_body_ok. intros Hne. apply Hheads; [assumption | lia].
Qed.

(** X12.  When the module binds [attention_per_head] to at least [n_heads]
    arrays, each with a weight for every book (or when there is no book),
    the call returns that list and, for every book [i], the mean over the
    heads [h] of [books[i].rating * attention_per_head[h][i]].  Neither
    [keys] nor [values] nor the temperature enters the result. *)
Theorem mean_of_head_ratings (n_heads : Z) :
  (0 < n_heads)%Z ->
  (d <> [] ->
   forall h, (h < Z.to_nat n_heads)%nat -> ~ short_head d heads h) ->
  multi_head_attention keys query values n_heads temperature g
  = (Ok (PyList heads, Array1 (mean_ratings d heads (Z.to_nat n_heads)),
         projection_matrices), g).
Proof. apply multi_head_attention_mean. Qed.

(** X13.  When there is a book and one of the [n_heads] heads is missing from
    [attention_per_head], or has fewer weights than there are books, the
    call ends in [IndexError]. *)
Theorem short_head_raises_IndexError (n_heads : Z) (h : nat) :
  d <> [] ->
  (h < Z.to_nat n_heads)%nat ->
  short_head d heads h ->
  multi_head_attention keys query values n_heads temperature g
  = (Raise IndexError, g).
Proof.
  intros Hne Hh Hs. rewrite multi_head_attention_loop. unfold range.
  apply mbind_raise. apply for_each_raise.
  - intros h' Hh'.
    destruct (le_lt_dec (length heads) h') as [H1 | H1].
    + right. apply head_body_raise; [assumption | now left].
    + destruct (le_lt_dec (length d) (length (nth h' heads []))) as [H2 | H2].
      * left. eexists. apply head_body_ok. intros _. unfold short_head. lia.
      * right. apply head_body_raise; [assumption | now right].
  - exists h. split; [apply in_seq; lia |].
    now apply head_body_raise.
Qed.

End BoundHeads.

Lemma mean_of_head_ratings_witness :
  multi_head_attention KQV_keys KQV_query KQV_values 1 (Fin 1)
    (one_book_namespace 2)
  = (Ok (PyList [[Fin 1]],
         Array1 (mean_ratings
                   [("Dune", mk_book (fins [0.5; 0.5; 0.5]) (Fin 2))]
                   [[Fin 1]] (Z.to_nat 1)),
         projection_matrices),
     one_book_namespace 2).
Proof.
  apply (mean_of_head_ratings KQV_keys KQV_query KQV_values (Fin 1)
           (one_book_namespace 2)
           [("Dune", mk_book (fins [0.5; 0.5; 0.5]) (Fin 2))] [[Fin 1]]).
  - reflexivity.
  - constructor; [intros [] | constructor].
  - reflexivity.
  - lia.
  - intros _ h Hh. unfold short_head. simpl.
    destruct h as [| h]; simpl; [lia |].
    change (Z.to_nat 1) with 1%nat in Hh. lia.
Defined.

Lemma short_head_raises_IndexError_witness :
  multi_head_attention KQV_keys KQV_query KQV_values 2 (Fin 1)
    (one_book_namespace 2)
  = (Raise IndexError, one_book_namespace 2).
Proof.
  apply (short_head_raises_IndexError KQV_keys KQV_query KQV_values (Fin 1)
           (one_book_namespace 2)
           [("Dune", mk_book (fins [0.5; 0.5; 0.5]) (Fin 2))] [[Fin 1]]
           eq_refl (NoDup_cons _ (fun H : In "Dune" [] => H) (NoDup_nil _))
           eq_refl 2 1).
  - discriminate.
  - change (Z.to_nat 2) with 2%nat. lia.
  - left. simpl. lia.
Defined.

(** * Building the arrays: [create_KQV] *)

Lemma np_array_rectangular (k : nat) (rs : list (list float)) :
  rs <> [] ->
  Forall (fun r => length r = k) rs ->
  np_array rs = Ok (Arr2 (mk_ndarray2 k rs)).
Proof.
  intros Hne Hall. destruct rs as [| r rs]; [contradiction |].
  inversion Hall as [| ? ? Hr Hrs]; subst. unfold np_array.
  assert (Hf : forallb (fun r' => Nat.eqb (length r') (length r)) rs = true).
  { apply forallb_forall. intros r' Hin. apply Nat.eqb_eq.
    rewrite Forall_forall in Hrs. now apply Hrs. }
  now rewrite Hf.
Qed.

Lemma np_array_ok (rs : list (list float)) (a : array_like) :
  np_array rs = Ok a ->
  match a with
  | Arr2 a2 => rows a2 = rs /\ rs <> [] /\ wf_ndarray2 a2
  | Arr1 l => l = [] /\ rs = []
  end.
Proof.
  unfold np_array. destruct rs as [| r rs].
  - intros H. injection H as <-. now split.
  - destruct (forallb _ rs) eqn:Hf; [| discriminate].
    intros H. injection H as <-. simpl.
    split; [reflexivity |]. split; [discriminate |].
    unfold wf_ndarray2. simpl. constructor; [reflexivity |].
    apply Forall_forall. intros r' Hin.
    rewrite forallb_forall in Hf. apply Nat.eqb_eq. now apply Hf.
Qed.

Lemma np_array_raise (rs : list (list float)) (e : exn) :
  np_array rs = Raise e <->
  e = ValueError
  /\ exists r r', In r rs /\ In r' rs /\ length r <> length r'.
Proof.
  unfold np_array. destruct rs as [| r rs].
  - split; [discriminate | intros [_ [x [y [[] _]]]]].
  - destruct (forallb _ rs) eqn:Hf.
    + split; [discriminate |].
      intros [_ [x [y [Hx [Hy Hne]]]]]. exfalso. apply Hne.
      rewrite forallb_forall in Hf.
      assert (Hlen : forall z, In z (r :: rs) -> length z = length r).
      { intros z [<- | Hz]; [reflexivity |]. apply Nat.eqb_eq. now apply Hf. }
      now rewrite (Hlen x Hx), (Hlen y Hy).
    + split.
      * intros H. injection H as <-. split; [reflexivity |].
        assert (Hex : exists r', In r' rs /\ length r' <> length r).
        { clear -Hf. induction rs as [| z rs IH]; [discriminate |].
          simpl in Hf. apply andb_false_iff in Hf.
          destruct Hf as [Hz | Hrs].
          - exists z. split; [now left | now apply Nat.eqb_neq].
          - destruct (IH Hrs) as [r' [Hin Hne]].
            exists r'. split; [now right | assumption]. }
        destruct Hex as [r' [Hin Hne]].
        exists r', r. split; [now right |]. split; [now left | assumption].
      * intros [-> _]. reflexivity.
Qed.

Lemma create_KQV_dict (g : namespace) (d : list (string * book)) :
  g "books" = Some (PyDict d) ->
  create_KQV g =
  match np_array (map embedding (map snd d)) with
  | Ok keys => (Ok (keys, fins [0.8; 0.7; 0.2], map rating (map snd d)), g)
  | Raise e => (Raise e, g)
  end.
Proof.
  intros Hb. unfold create_KQV. load_ok Hb.
  rewrite (mbind_ok _ _ g g (map snd d)) by reflexivity. cbv beta.
  destruct (np_array (map embedding (map snd d))) as [keys | e] eqn:Hk.
  - rewrite (mbind_ok _ _ g g keys) by reflexivity.
    cbv beta. load_ok Hb.
    rewrite (mbind_ok _ _ g g (map snd d)) by reflexivity. reflexivity.
  - apply mbind_raise. reflexivity.
Qed.

(** X14.  Whatever the module binds to [books]: when [create_KQV] returns, the
    namespace is unchanged, the query is the fixed preference vector, and
    the keys and the values go together: either there is no book and both
    are empty, or the keys are a two-dimensional array with one row per
    value, every row of the same length. *)
Theorem create_KQV_shapes (g g' : namespace) (keys : array_like)
    (query values : list float) :
  create_KQV g = (Ok (keys, query, values), g') ->
  g' = g
  /\ query = fins [0.8; 0.7; 0.2]
  /\ match keys with
     | Arr2 a =>
         wf_ndarray2 a /\ rows a <> [] /\ length (rows a) = length values
     | Arr1 l => l = [] /\ values = []
     end.
Proof.
  intros H.
  destruct (g "books") as [[d | l] |] eqn:Hb.
  - rewrite (create_KQV_dict g d Hb) in H.
    destruct (np_array (map embedding (map snd d))) as [k | e] eqn:Hk;
      [| discriminate].
    injection H as <- <- <- <-.
    split; [reflexivity |]. split; [reflexivity |].
    apply np_array_ok in Hk. destruct k as [l | a].
    + destruct Hk as [-> Hnil]. split; [reflexivity |].
      apply map_eq_nil in Hnil. now rewrite Hnil.
    + destruct Hk as [Hrows [Hne Hwf]].
      split; [assumption |]. split; [now rewrite Hrows |].
      now rewrite Hrows, !length_map.
  - unfold create_KQV in H.
    rewrite (mbind_ok _ _ g g (PyList l)) in H
      by now apply load_global_bound.
    cbv beta in H. rewrite (mbind_raise _ _ g g AttributeError) in H
      by reflexivity.
    discriminate.
  - unfold create_KQV in H.
    rewrite (mbind_raise _ _ g g NameError) in H
      by now apply load_global_unbound.
    discriminate.
Qed.

Lemma create_KQV_notebook :
  create_KQV notebook_namespace
  = (Ok (Arr2 KQV_keys, KQV_query, KQV_values), notebook_namespace).
Proof.
  rewrite (create_KQV_dict notebook_namespace books) by reflexivity.
  reflexivity.
Qed.

Lemma create_KQV_shapes_witness :
  notebook_namespace = notebook_namespace
  /\ KQV_query = fins [0.8; 0.7; 0.2]
  /\ wf_ndarray2 KQV_keys /\ rows KQV_keys <> []
     /\ length (rows KQV_keys) = length KQV_values.
Proof.
  exact (create_KQV_shapes notebook_namespace notebook_namespace
           (Arr2 KQV_keys) KQV_query KQV_values create_KQV_notebook).
Defined.


(** * Drawing the single head: [visualize_attention] *)

Section Visualize.

Variables (g : namespace) (d : list (string * book)).
Hypothesis Hb : g "books" = Some (PyDict d).

Let embeddings : list (list float) := map embedding (map snd d).
Let ratings : list float := map rating (map snd d).
Let query : list float := fins [0.8; 0.7; 0.2].

Lemma visualize_attention_ok :
  d <> [] ->
  Forall (fun r => length r = 3%nat) embeddings ->
  exists weights rating,
    compute_attention (mk_ndarray2 3 embeddings) query ratings (Fin 1)
    = Ok (weights, rating)
    /\ visualize_attention g
       = (Ok (map (fun i => similarity_row (nth i query NaN)
                              (map (fun r => nth i r NaN) embeddings))
                  (seq 0 3),
              map fst d, Array1 weights, rating), g).
Proof.
  intros Hne Hall.
  assert (Hemb : embeddings <> []).
  { unfold embeddings. destruct d; [contradiction | discriminate]. }
  assert (Hlen : length embeddings = length d)
    by (unfold embeddings; now rewrite !length_map).
  pose proof (compute_attention_ok (mk_ndarray2 3 embeddings) query ratings
                (Fin 1) eq_refl) as Hca.
  cbv zeta in Hca. simpl rows in Hca.
  rewrite Hca by (unfold ratings, embeddings; now rewrite !length_map).
  eexists. eexists. split; [reflexivity |].
  unfold visualize_attention.
  rewrite (mbind_ok _ _ g g (Arr2 (mk_ndarray2 3 embeddings), query, ratings)).
  2:{ rewrite (create_KQV_dict g d Hb). fold embeddings.
      now rewrite (np_array_rectangular 3 embeddings Hemb Hall). }
  cbv beta iota.
  rewrite (mbind_ok _ _ g g
             (Array1 (softmax (map (fun r => fdiv (inner r query) (Fin 1))
                                   embeddings)),
              np_sum (zip_mul ratings
                        (softmax (map (fun r => fdiv (inner r query) (Fin 1))
                                      embeddings))))).
  2:{ rewrite lift_run. unfold compute_attention_nd.
      rewrite Hca by (unfold ratings, embeddings; now rewrite !length_map).
      reflexivity. }
  cbv beta iota. load_ok Hb.
  rewrite (mbind_ok _ _ g g
             (map (fun i => similarity_row (nth i query NaN)
                              (map (fun r => nth i r NaN) embeddings))
                  (seq 0 3))).
  2:{ apply for_each_ok. intros i Hi. apply in_seq in Hi.
      assert (Hq : nth_error query i = Some (nth i query NaN))
        by (apply nth_error_nth'; simpl; lia).
      rewrite (mbind_ok _ _ g g (nth i query NaN))
        by (rewrite lift_run; unfold array_getitem; now rewrite Hq).
      cbv beta.
      rewrite (mbind_ok _ _ g g (map (fun r => nth i r NaN) embeddings)).
      2:{ rewrite lift_run. unfold column_of. simpl ncols.
          assert (Hi3 : Nat.ltb i 3 = true) by (apply Nat.ltb_lt; lia).
          now rewrite Hi3. }
      cbv beta. rewrite lift_run. unfold assign_row, similarity_row.
      cbn [py_len]. rewrite !length_map. fold embeddings.
      rewrite Hlen, Nat.eqb_refl. reflexivity. }
  cbv beta. load_ok Hb.
  rewrite (mbind_ok _ _ g g (map fst d)) by reflexivity.
  reflexivity.
Qed.

(** X16.  On a dict of books, the drawing of the single head fails exactly when
    there is no book or some embedding does not have three features, and
    then with [ValueError]: from [np.array] on embeddings of different
    lengths, from [np.dot] otherwise.  In every other case it returns. *)
Theorem visualize_attention_fails_iff :
  (fst (visualize_attention g) = Raise ValueError <->
   d = [] \/ Exists (fun r => length r <> 3%nat) embeddings)
  /\ (forall e, fst (visualize_attention g) = Raise e -> e = ValueError).
Proof.
  assert (Hcases :
    (d <> [] /\ Forall (fun r => length r = 3%nat) embeddings)
    \/ ((d = [] \/ Exists (fun r => length r <> 3%nat) embeddings)
        /\ fst (visualize_attention g) = Raise ValueError)).
  { destruct (Nat.eq_dec (length d) 0) as [H0 | Hn0].
    - apply length_zero_iff_nil in H0. right. split; [now left |].
      unfold visualize_attention.
      pose proof (create_KQV_dict g d Hb) as Hc. rewrite H0 in Hc.
      simpl in Hc. rewrite (mbind_ok _ _ _ _ _ Hc). reflexivity.
    - assert (Hd : d <> []) by (intros E; now rewrite E in Hn0).
      destruct (Forall_Exists_dec (fun r => length r = 3%nat)
                  (fun r => Nat.eq_dec (length r) 3) embeddings)
        as [Hall | Hex].
      + left. split; assumption.
      + right. split; [now right |].
        unfold visualize_attention.
        pose proof (create_KQV_dict g d Hb) as Hc.
        change (map embedding (map snd d)) with embeddings in Hc.
        assert (Hemb : embeddings <> [])
          by (intros E; rewrite E in Hex; inversion Hex).
        destruct (np_array embeddings) as [keys | e] eqn:Hk.
        * rewrite (mbind_ok _ _ _ _ _ Hc). cbv beta iota.
          apply np_array_ok in Hk. destruct keys as [l | a].
          { destruct Hk as [_ Hnil]. contradiction. }
          destruct Hk as [Hrows [_ Hwf]].
          assert (Hn3 : ncols a <> 3%nat).
          { intros H3. apply Exists_exists in Hex.
            destruct Hex as [r [Hin Hr]]. apply Hr.
            unfold wf_ndarray2 in Hwf. rewrite Forall_forall in Hwf.
            rewrite <- H3. apply Hwf. now rewrite Hrows. }
          rewrite (mbind_raise _ _ g g ValueError); [reflexivity |].
          rewrite lift_run.
          unfold compute_attention_nd, compute_attention, attention_scores.
          rewrite np_dot_raise by (simpl; assumption). reflexivity.
        * rewrite (mbind_raise _ _ _ _ _ Hc).
          apply np_array_raise in Hk. destruct Hk as [-> _]. reflexivity. }
  destruct Hcases as [[Hne Hall] | [Hbad Hraise]].
  - destruct (visualize_attention_ok Hne Hall) as [w [r [_ Hok]]].
    rewrite Hok. simpl. split.
    + split; [discriminate |]. intros [H | H]; [contradiction |].
      apply Exists_exists in H. destruct H as [x [Hin Hx]].
      rewrite Forall_forall in Hall. now specialize (Hall x Hin).
    + discriminate.
  - rewrite Hraise. split.
    + split; [intros _; assumption | reflexivity].
    + intros e H. now injection H.
Qed.

End Visualize.

Lemma visualize_attention_fails_iff_witness :
  (fst (visualize_attention notebook_namespace) = Raise ValueError <->
   books = []
   \/ Exists (fun r => length r <> 3%nat) (map embedding (map snd books)))
  /\ (forall e, fst (visualize_attention notebook_namespace) = Raise e ->
        e = ValueError).
Proof.
  exact (visualize_attention_fails_iff notebook_namespace books eq_refl).
Defined.

Lemma nth_fins (l : list R) (i : nat) :
  (i < length l)%nat -> nth i (fins l) NaN = Fin (nth i l 0).
Proof.
  intros Hi. unfold fins.
  rewrite (nth_indep _ NaN (Fin 0)) by now rewrite length_map.
  apply (map_nth Fin).
Qed.

Lemma fin_books_embeddings (items : list (string * (list R * R))) :
  map embedding (map snd (fin_books items))
  = map fins (map (fun it => fst (snd it)) items).
Proof. unfold fin_books. rewrite !map_map. reflexivity. Qed.

Lemma fin_books_ratings (items : list (string * (list R * R))) :
  map rating (map snd (fin_books items))
  = fins (map (fun it => snd (snd it)) items).
Proof. unfold fin_books, fins. rewrite !map_map. reflexivity. Qed.

Lemma fin_books_names (items : list (string * (list R * R))) :
  map fst (fin_books items) = map fst items.
Proof. unfold fin_books. rewrite map_map. reflexivity. Qed.

(** The similarity of two features in [[0, 1]] is in [[0, 1]]. *)
Lemma similarity_in_unit (x k : R) :
  0 <= x <= 1 -> 0 <= k <= 1 ->
  fsub (Fin 1) (fabs (fsub (Fin x) (Fin k))) = Fin (1 + - Rabs (x + - k))
  /\ 0 <= 1 + - Rabs (x + - k) <= 1.
Proof.
  intros Hx Hk. split; [reflexivity |].
  pose proof (Rabs_pos (x + - k)).
  assert (Rabs (x + - k) <= 1) by (apply Rabs_le; lra).
  lra.
Qed.



(** * Drawing the heads: [visualize_multi_head_attention] *)

Lemma reads_only_create_KQV : reads_only ["books"] create_KQV.
Proof. unfold create_KQV. auto 12 with reads. Qed.

(** X18.  The drawing of the heads never returns while the module leaves
    [attention_per_head] unbound, whatever it binds to [books]: nothing is
    drawn.  On a dict of books with embeddings of one length the error is
    the [NameError] of [multi_head_attention]. *)
Theorem visualize_multi_head_attention_never_returns (g : namespace) :
  g "attention_per_head" = None ->
  (exists e, visualize_multi_head_attention g = (Raise e, g))
  /\ (forall d k,
        g "books" = Some (PyDict d) ->
        Forall (fun b => length (embedding b) = k) (map snd d) ->
        visualize_multi_head_attention g = (Raise NameError, g)).
Proof.
  intros Hnone.
  assert (Hstep : forall kqv,
            create_KQV g = (Ok kqv, g) ->
            visualize_multi_head_attention g
            = (Raise (error_without_heads g 2), g)).
  { intros [[keys query] values] Hc. unfold visualize_multi_head_attention.
    rewrite (mbind_ok _ _ _ _ _ Hc). cbv beta iota.
    apply mbind_raise. now apply multi_head_attention_without_heads. }
  split.
  - destruct (create_KQV g) as [[kqv | e] g'] eqn:Hc.
    + assert (g' = g).
      { pose proof (proj1 (reads_only_create_KQV) g) as Hg.
        rewrite Hc in Hg. exact Hg. }
      subst g'. exists (error_without_heads g 2). exact (Hstep kqv eq_refl).
    + assert (g' = g).
      { pose proof (proj1 (reads_only_create_KQV) g) as Hg.
        rewrite Hc in Hg. exact Hg. }
      subst g'. exists e. unfold visualize_multi_head_attention.
      now rewrite (mbind_raise _ _ _ _ _ Hc).
  - intros d k Hb Hall.
    pose proof (create_KQV_dict g d Hb) as Hc.
    assert (Hk : exists keys, np_array (map embedding (map snd d)) = Ok keys).
    { destruct (map embedding (map snd d)) as [| r rs] eqn:Hrs.
      - eexists. reflexivity.
      - exists (Arr2 (mk_ndarray2 k (r :: rs))).
        apply np_array_rectangular; [discriminate |].
        rewrite <- Hrs. apply Forall_forall. intros x Hx.
        apply in_map_iff in Hx. destruct Hx as [b [<- Hin]].
        rewrite Forall_forall in Hall. now apply Hall. }
    destruct Hk as [keys Hk]. rewrite Hk in Hc.
    rewrite (Hstep _ Hc). unfold error_without_heads. now rewrite Hb.
Qed.

Lemma visualize_multi_head_attention_never_returns_witness :
  (exists e, visualize_multi_head_attention notebook_namespace
             = (Raise e, notebook_namespace))
  /\ visualize_multi_head_attention notebook_namespace
     = (Raise NameError, notebook_namespace).
Proof.
  destruct (visualize_multi_head_attention_never_returns notebook_namespace)
    as [Hex Hname].
  - reflexivity.
  - split; [exact Hex |].
    apply (Hname books 3%nat); [reflexivity | repeat constructor].
Defined.

Lemma for_each_ok_such_that {A B : Type} (P : B -> Prop) (l : list A)
    (body : A -> M B) (g : namespace) :
  (forall a, In a l -> exists b, body a g = (Ok b, g) /\ P b) ->
  exists bs, for_each l body g = (Ok bs, g)
             /\ Forall P bs /\ length bs = length l.
Proof.
  induction l as [| a l IH]; intros H.
  - exists []. repeat split. constructor.
  - destruct (H a (or_introl eq_refl)) as [b [Hb HP]].
    destruct IH as [bs [Hbs [HPs Hlen]]];
      [intros a' Ha'; apply H; now right |].
    exists (b :: bs). split; [| split].
    + simpl. rewrite (mbind_ok _ _ _ _ _ Hb). cbv beta.
      rewrite (mbind_ok _ _ _ _ _ Hbs). reflexivity.
    + now constructor.
    + simpl. now rewrite Hlen.
Qed.

Lemma unit_float_similarity (x k : float) :
  unit_float x -> unit_float k ->
  unit_float (fsub (Fin 1) (fabs (fsub x k))).
Proof.
  intros [a [-> Ha]] [b [-> Hb]].
  destruct (similarity_in_unit a b Ha Hb) as [Heq Hin].
  eexists. split; [exact Heq | exact Hin].
Qed.

Lemma unit_float_nth (l : list float) (i : nat) :
  Forall unit_float l -> (i < length l)%nat -> unit_float (nth i l NaN).
Proof.
  intros H Hi. rewrite Forall_forall in H. apply H. now apply nth_In.
Qed.

(** Both projection matrices have non-negative entries and columns that
    sum to 1: they map three features in [[0, 1]] to three features in
    [[0, 1]]. *)
Lemma projection_keeps_unit (h : nat) (v : list float) :
  (h < 2)%nat ->
  length v = 3%nat ->
  Forall unit_float v ->
  exists p,
    matrices_get projection_matrices (Z.of_nat h) = Ok p
    /\ ncols p = 3%nat
    /\ length (rows p) = 3%nat
    /\ length (row_times v p) = 3%nat
    /\ Forall unit_float (row_times v p).
Proof.
  intros Hh Hlen Hv.
  destruct v as [| x0 [| x1 [| x2 [| ? ?]]]]; try discriminate.
  inversion Hv as [| ? ? [a0 [-> H0]] Hv1]; subst.
  inversion Hv1 as [| ? ? [a1 [-> H1]] Hv2]; subst.
  inversion Hv2 as [| ? ? [a2 [-> H2]] _]; subst.
  destruct h as [| [| h]]; [| | lia];
    (eexists; split; [reflexivity |]);
    (split; [reflexivity |]); (split; [reflexivity |]);
    (split; [reflexivity |]);
    unfold row_times, inner, np_sum; simpl;
    repeat constructor; (eexists; split; [reflexivity | lra]).
Qed.

Lemma visualize_multi_head_attention_run (g : namespace)
    (items : list (string * (list R * R))) (heads : list (list float))
    (out : outcome (list (list (list float)) * list string
                    * list (list float) * ndarray) * namespace) :
  g "books" = Some (PyDict (fin_books items)) ->
  NoDup (map fst items) ->
  items <> [] ->
  (forall it, In it items ->
     length (fst (snd it)) = 3%nat
     /\ forall x, In x (fst (snd it)) -> 0 <= x <= 1) ->
  g "attention_per_head" = Some (PyList heads) ->
  (forall h, (h < 2)%nat -> ~ short_head (fin_books items) heads h) ->
  visualize_multi_head_attention g = out ->
  exists sims,
    out = (Ok (sims, map fst items, [nth 0 heads []; nth 1 heads []],
               Array1 (mean_ratings (fin_books items) heads 2)), g)
    /\ length sims = 2%nat
    /\ Forall (fun sim =>
                 length sim = 3%nat
                 /\ Forall (fun row => length row = length items
                                       /\ Forall unit_float row) sim)
              sims.
Proof.
  intros Hb Hnd Hne Hitems Ha Hheads Hout.
  set (d := fin_books items) in *.
  set (es := map (fun it => fst (snd it)) items).
  set (krows := map fins es).
  set (q := fins [0.8; 0.7; 0.2]).
  assert (Hlen_d : length d = length items) by (unfold d; apply length_map).
  assert (Hkrows : forall r, In r krows ->
            length r = 3%nat /\ Forall unit_float r).
  { intros r Hr. unfold krows in Hr. apply in_map_iff in Hr.
    destruct Hr as [e [<- He]]. unfold es in He. apply in_map_iff in He.
    destruct He as [it [<- Hin]]. destruct (Hitems it Hin) as [H3 H01].
    split; [now rewrite fins_length |].
    apply Forall_forall. intros x Hx. unfold fins in Hx.
    apply in_map_iff in Hx. destruct Hx as [r [<- Hr]].
    exists r. split; [reflexivity | now apply H01]. }
  assert (Hq : length q = 3%nat /\ Forall unit_float q).
  { split; [reflexivity |].
    unfold q, fins. simpl.
    repeat constructor; (eexists; split; [reflexivity | lra]). }
  assert (Hlen_k : length krows = length items)
    by (unfold krows, es; now rewrite !length_map).
  assert (Hc : create_KQV g
               = (Ok (Arr2 (mk_ndarray2 3 krows), q,
                      map rating (map snd d)), g)).
  { rewrite (create_KQV_dict g d Hb). unfold d at 1.
    rewrite fin_books_embeddings. fold es. fold krows.
    rewrite (np_array_rectangular 3 krows); [reflexivity | |].
    - intros E. rewrite E in Hlen_k. destruct items; [contradiction | discriminate].
    - apply Forall_forall. intros r Hr. now apply Hkrows. }
  unfold visualize_multi_head_attention in Hout.
  rewrite (mbind_ok _ _ _ _ _ Hc) in Hout. cbv beta iota in Hout.
  assert (Hm : multi_head_attention
                 (keys_argument (Arr2 (mk_ndarray2 3 krows))) q
                 (map rating (map snd d)) 2 (Fin 1) g
               = (Ok (PyList heads, Array1 (mean_ratings d heads 2),
                      projection_matrices), g)).
  { apply (multi_head_attention_mean _ _ _ _ g d heads Hb); try assumption.
    - unfold d. now rewrite fin_books_names.
    - lia.
    - intros _ h Hh. apply Hheads. change (Z.to_nat 2) with 2%nat in Hh. lia. }
  rewrite (mbind_ok _ _ _ _ _ Hm) in Hout. cbv beta iota in Hout.
  rewrite (mbind_ok _ _ _ _ _ (load_global_bound _ _ _ Hb)) in Hout.
  cbv beta in Hout.
  rewrite (mbind_ok _ _ g g (map fst d)) in Hout by reflexivity.
  cbv beta in Hout.
  set (P := fun sim : list (list float) =>
              length sim = 3%nat
              /\ Forall (fun row => length row = length items
                                    /\ Forall unit_float row) sim).
  match type of Hout with
  | mbind (for_each ?l ?body) _ _ = _ =>
      destruct (for_each_ok_such_that P l body g) as [sims [Hs [HP Hl]]]
  end.
  { intros h Hh. apply in_seq in Hh.
    destruct (projection_keeps_unit h q) as [p [Hget [Hnc [Hnr [HqT Hunit]]]]];
      [lia | apply Hq | apply Hq |].
    rewrite (mbind_ok _ _ g g p) by (rewrite lift_run; now rewrite Hget).
    cbv beta.
    rewrite (mbind_ok _ _ g g (row_times q p)).
    2:{ rewrite lift_run. unfold np_dot_vec_mat.
        destruct Hq as [Hq3 _]. now rewrite Hq3, Hnr. }
    cbv beta.
    rewrite (mbind_ok _ _ g g p) by (rewrite lift_run; now rewrite Hget).
    cbv beta.
    rewrite (mbind_ok _ _ g g
               (Arr2 (mk_ndarray2 (ncols p)
                        (map (fun r => row_times r p) krows)))).
    2:{ rewrite lift_run. unfold np_dot_nd. simpl ncols. simpl rows.
        now rewrite Hnr. }
    cbv beta.
    set (P' := fun row : list float =>
                 length row = length items /\ Forall unit_float row).
    match goal with
    | |- exists b, for_each ?l ?body g = _ /\ _ =>
        destruct (for_each_ok_such_that P' l body g)
          as [sim [Hsim [HPsim Hlsim]]]
    end.
    { intros i Hi. apply in_seq in Hi.
      rewrite (mbind_ok _ _ g g (nth i (row_times q p) NaN)).
      2:{ rewrite lift_run. unfold array_getitem.
          rewrite (nth_error_nth' _ NaN); [reflexivity | lia]. }
      cbv beta.
      rewrite (mbind_ok _ _ g g
                 (map (fun r => nth i r NaN)
                      (map (fun r => row_times r p) krows))).
      2:{ rewrite lift_run. unfold column_of. simpl ncols. simpl rows.
          assert (Hlt : Nat.ltb i (ncols p) = true)
            by (apply Nat.ltb_lt; lia).
          now rewrite Hlt. }
      cbv beta. rewrite lift_run. unfold assign_row, similarity_row.
      rewrite !length_map. rewrite Hlen_k, Hlen_d, Nat.eqb_refl.
      eexists. split; [reflexivity |]. split.
      - now rewrite !length_map.
      - apply Forall_forall. intros s Hs. rewrite !map_map in Hs.
        apply in_map_iff in Hs. destruct Hs as [r [<- Hr]].
        apply unit_float_similarity.
        + apply unit_float_nth; [assumption | lia].
        + destruct (Hkrows r Hr) as [Hr3 Hr01].
          destruct (projection_keeps_unit h r) as [p' [Hget' [_ [_ [Hl' Hu']]]]];
            [lia | assumption | assumption |].
          rewrite Hget in Hget'. injection Hget' as <-.
          apply unit_float_nth; [assumption | lia]. }
    exists sim. split; [exact Hsim |]. split; [exact Hlsim | exact HPsim]. }
  rewrite (mbind_ok _ _ _ _ _ Hs) in Hout. cbv beta in Hout.
  rewrite (mbind_ok _ _ g g (map (fun h => nth h heads []) (seq 0 2)))
    in Hout.
  2:{ apply for_each_ok. intros h Hh. apply in_seq in Hh.
      rewrite lift_run. cbn [py_getitem_int].
      assert (Hlt : (h < length heads)%nat).
      { specialize (Hheads h ltac:(lia)). unfold short_head in Hheads. lia. }
      now rewrite (nth_error_nth' heads [] Hlt). }
  cbv beta in Hout. unfold mret in Hout.
  exists sims. split; [| split].
  - rewrite <- Hout. unfold d. now rewrite fin_books_names.
  - exact Hl.
  - exact HP.
Qed.



(** * The namespace is only read *)

#[local] Hint Resolve multi_head_attention_reads_only reads_only_create_KQV
  : reads.

(** X20.  [create_KQV] and the two drawing functions leave the namespace of the
    module as they found it; the outcome of [create_KQV] and of the drawing
    of the single head depends on the namespace through [books] alone, that
    of the drawing of the heads through [books] and [attention_per_head]. *)
Theorem helpers_read_only :
  reads_only ["books"] create_KQV
  /\ reads_only ["books"] visualize_attention
  /\ reads_only ["books"; "attention_per_head"] visualize_multi_head_attention.
Proof.
  split; [apply reads_only_create_KQV |]. split.
  - unfold visualize_attention.
    apply reads_only_mbind; [auto with reads |]. intros [[keys query] values].
    apply reads_only_mbind; [auto with reads |]. intros [weights rating].
    auto 12 with reads.
  - unfold visualize_multi_head_attention.
    apply reads_only_mbind.
    { destruct reads_only_create_KQV as [H1 H2]. split; [exact H1 |].
      intros g g' Hg. apply H2. intros n Hn. apply Hg.
      destruct Hn as [<- | []]. now left. }
    intros [[keys query] values].
    apply reads_only_mbind; [auto with reads |].
    intros [[heads final] matrices].
    apply reads_only_mbind; [auto with reads |]. intros books0.
    apply reads_only_mbind; [auto with reads |]. intros names.
    apply reads_only_mbind.
    { apply reads_only_for_each. intros head. auto 12 with reads. }
    intros sims.
    apply reads_only_mbind; [| auto with reads].
    apply reads_only_for_each. intros head. auto with reads.
Qed.
